(** * codegame: a verification development of the snake default AI, the
    frontend API clients, the game API documentation and a model of the
    grid-chase match engine. *)

From Stdlib Require Import String List ZArith Bool Lia.
Import ListNotations.
Open Scope string_scope.
Set Warnings "-register-all".

(* ------------------------------------------------------------------ *)
(** ** Frontend API clients: src/frontend/src/api/agents.ts, auth.ts *)

Module Frontend.

(** JSON values as produced by [response.json()]. *)
Inductive Json :=
| JNull
| JBool (b : bool)
| JNum (n : Z)
| JStr (s : string)
| JArr (xs : list Json)
| JObj (fields : list (string * Json)).

(** The errors a promise of these functions can reject with. *)
Inductive JsError :=
| Error (message : string)      (* new Error(message) *)
| SyntaxError.                  (* response.json() on a non-JSON body *)

(** The settled value of an async function. *)
Inductive Promise (A : Type) :=
| Resolved (v : A)
| Rejected (e : JsError).
Arguments Resolved {A} v.
Arguments Rejected {A} e.

Definition bind {A B} (p : Promise A) (k : A -> Promise B) : Promise B :=
  match p with
  | Resolved v => k v
  | Rejected e => Rejected e
  end.

Record Request := {
  url : string;
  method : string;
  credentials : string;
  payload : list (string * string)   (* fields of JSON.stringify(body) *)
}.

Record Response := {
  status : Z;
  body : string
}.

(** [Response.ok] of the Fetch API: status in the range 200-299. *)
Definition ok (r : Response) : bool := (200 <=? status r)%Z && (status r <=? 299)%Z.

(** Decimal rendering of a non-negative integer, as in a template string. *)
Fixpoint digits (fuel : nat) (n : Z) (acc : string) : string :=
  match fuel with
  | O => acc
  | S fuel' =>
      let d := Z.to_nat (n mod 10) in
      let c := Ascii.ascii_of_nat (48 + d) in
      let acc' := String c acc in
      if (n <? 10)%Z then acc' else digits fuel' (n / 10) acc'
  end.

Definition number_to_string (n : Z) : string :=
  if (n <? 0)%Z then "-" ++ digits (Z.to_nat (- n) + 1) (- n) ""
  else digits (Z.to_nat n + 1) n "".

Section Client.

(** The network (one response per request) and the JSON parser of the
    browser; every theorem below holds for all of them. *)
Variable fetch : Request -> Response.
Variable json_parse : string -> option Json.

Definition response_json (r : Response) : Promise Json :=
  match json_parse (body r) with
  | Some v => Resolved v
  | None => Rejected SyntaxError
  end.

(** fetchAgents, after [await fetch(...)] has produced [response]. *)
Definition fetchAgents_k (response : Response) : Promise Json :=
  if negb (ok response) then
    if (status response =? 401)%Z then Resolved (JArr [])
    else Rejected (Error "Failed to fetch agents")
  else response_json response.

Definition agents_request (gameId : Z) : Request :=
  {| url := "/api/agents?game_id=" ++ number_to_string gameId;
     method := "GET"; credentials := "include"; payload := [] |}.

Definition fetchAgents (gameId : Z) : Promise Json :=
  fetchAgents_k (fetch (agents_request gameId)).

(** login, after [await fetch(...)] has produced [res]. *)
Definition login_k (res : Response) : Promise Json :=
  if negb (ok res) then
    if (status res =? 404)%Z then Rejected (Error "Invalid username or password")
    else Rejected (Error "Login failed")
  else response_json res.

Definition login_request (username password : string) : Request :=
  {| url := "/api/users/auth"; method := "POST"; credentials := "include";
     payload := [("username", username); ("password", password)] |}.

Definition login (username password : string) : Promise Json :=
  login_k (fetch (login_request username password)).

End Client.

End Frontend.

(* ------------------------------------------------------------------ *)
(** ** The default snake AI: src/games/snake/assets/default_ai.lua *)

Module DefaultAI.

Record Pos := { x : Z; y : Z }.

(** The [state] table passed to [think]. *)
Record State := {
  snake : list Pos;       (* index 1 = head *)
  food : Pos;
  direction : string;
  grid_size : Z;
  score : Z
}.

(** [think state]; [None] is the Lua error raised by [head.x] when
    [state.snake[1]] is nil. *)
Definition think (state : State) : option string :=
  match snake state with
  | [] => None
  | head :: _ =>
      let food := food state in
      if (x head <? x food)%Z && negb (String.eqb (direction state) "west") then Some "east"
      else if (x food <? x head)%Z && negb (String.eqb (direction state) "east") then Some "west"
      else if (y head <? y food)%Z && negb (String.eqb (direction state) "south") then Some "north"
      else if (y food <? y head)%Z && negb (String.eqb (direction state) "north") then Some "south"
      else Some (direction state)
  end.

Definition directions : list string := ["north"; "south"; "east"; "west"].

End DefaultAI.

(* ------------------------------------------------------------------ *)
(** ** Grid-chase rules engine *)

(** Modelled from the spec: the grid-chase rules engine (the Rust snake
    game runtime, games/snake, whose sources are not part of src/), after
    section 4.2 of the spec: requested headings with self-reversal ignored,
    wall and body collision, goal consumption with a seeded generator.
    Headings and coordinates follow src/games/snake/assets/default_ai.lua,
    where "north" increases y and "east" increases x. *)
Module GridChase.

Inductive Heading := North | South | East | West.

Definition heading_eqb (a b : Heading) : bool :=
  match a, b with
  | North, North | South, South | East, East | West, West => true
  | _, _ => false
  end.

Definition reverse (h : Heading) : Heading :=
  match h with North => South | South => North | East => West | West => East end.

Definition unit_vector (h : Heading) : Z * Z :=
  match h with
  | North => (0, 1)%Z | South => (0, -1)%Z | East => (1, 0)%Z | West => (-1, 0)%Z
  end.

Definition Cell := (Z * Z)%type.

Definition cell_eqb (a b : Cell) : bool := (fst a =? fst b)%Z && (snd a =? snd b)%Z.

Definition mem (c : Cell) (l : list Cell) : bool := existsb (cell_eqb c) l.

Definition shift (c : Cell) (h : Heading) : Cell :=
  (fst c + fst (unit_vector h), snd c + snd (unit_vector h))%Z.

Definition in_grid (n : Z) (c : Cell) : bool :=
  (0 <=? fst c)%Z && (fst c <? n)%Z && (0 <=? snd c)%Z && (snd c <? n)%Z.

Record Agent := {
  body : list Cell;      (* head first *)
  heading : Heading;
  alive : bool;
  score : nat
}.

Record State := {
  agents : list Agent;   (* registration order *)
  goal : option Cell;    (* None once no cell is free *)
  grid : Z;              (* grid dimension N *)
  rng : Z;               (* state of the seeded generator *)
  tick : nat
}.

(** Step 1: a request for the exact reverse of the current heading is
    ignored, the current heading is kept. *)
Definition applied_heading (current requested : Heading) : Heading :=
  if heading_eqb requested (reverse current) then current else requested.

(** Step 2: the head shifted one unit along the applied heading. *)
Definition new_head (a : Agent) (requested : Heading) : option Cell :=
  match body a with
  | [] => None
  | hd :: _ => Some (shift hd (applied_heading (heading a) requested))
  end.

Definition reaches_goal (g : option Cell) (a : Agent) (requested : Heading) : bool :=
  alive a &&
  match g, new_head a requested with
  | Some g, Some nh => cell_eqb nh g
  | _, _ => false
  end.

(** Step 4: the cells of an agent a new head collides with (its body,
    without the tail about to be vacated unless the agent grows). *)
Definition blocking (g : option Cell) (ar : Agent * Heading) : list Cell :=
  let (a, req) := ar in
  if alive a && negb (reaches_goal g a req) then removelast (body a) else body a.

Inductive Move :=
| Idle                              (* dead agents do not move *)
| Dies (h : Heading)
| Grows (nh : Cell) (h : Heading)
| Advances (nh : Cell) (h : Heading).

Definition step_agent (n : Z) (g : option Cell) (occupied : list Cell)
    (ar : Agent * Heading) : Move :=
  let (a, req) := ar in
  if negb (alive a) then Idle else
  match body a with
  | [] => Idle
  | hd :: _ =>
      let h := applied_heading (heading a) req in
      let nh := shift hd h in
      if negb (in_grid n nh) || mem nh occupied then Dies h                 (* steps 3, 4 *)
      else if reaches_goal g a req then Grows nh h                           (* step 5 *)
      else Advances nh h                                                     (* step 6 *)
  end.

Definition apply_move (a : Agent) (m : Move) : Agent :=
  match m with
  | Idle => a
  | Dies h => {| body := body a; heading := h; alive := false; score := score a |}
  | Grows nh h => {| body := nh :: body a; heading := h; alive := true; score := S (score a) |}
  | Advances nh h =>
      {| body := nh :: removelast (body a); heading := h; alive := true; score := score a |}
  end.

Definition is_grows (m : Move) : bool := match m with Grows _ _ => true | _ => false end.

(** The match's seeded deterministic generator (a linear congruential
    generator modulo 2^31). *)
Definition rng_next (r : Z) : Z := ((1103515245 * r + 12345) mod 2147483648)%Z.

Definition zrange (n : Z) : list Z := map Z.of_nat (seq 0 (Z.to_nat n)).

Definition all_cells (n : Z) : list Cell :=
  flat_map (fun x => map (fun y => (x, y)) (zrange n)) (zrange n).

Definition occupied_cells (ags : list Agent) : list Cell := flat_map body ags.

Definition free_cells (n : Z) (ags : list Agent) : list Cell :=
  filter (fun c => negb (mem c (occupied_cells ags))) (all_cells n).

(** Step 5: a new goal drawn among the free cells with the generator. *)
Definition place_goal (n : Z) (ags : list Agent) (r : Z) : option Cell * Z :=
  let r' := rng_next r in
  let free := free_cells n ags in
  (nth_error free (Z.to_nat (r' mod Z.of_nat (length free))), r').

(** [transition(state, actions, rng) -> (nextState, terminal?)]; the
    actions are applied as one batch against the cells occupied before
    the tick. *)
Definition transition (st : State) (reqs : list Heading) : State * bool :=
  let ars := combine (agents st) reqs in
  let occupied := flat_map (blocking (goal st)) ars in
  let moves := map (step_agent (grid st) (goal st) occupied) ars in
  let ags' := map (fun am => apply_move (fst am) (snd am)) (combine (agents st) moves) in
  let '(g', r') :=
    if existsb is_grows moves then place_goal (grid st) ags' (rng st) else (goal st, rng st) in
  ({| agents := ags'; goal := g'; grid := grid st; rng := r'; tick := S (tick st) |},
   negb (forallb alive ags')).

(** The invariant of the goal: on the grid and on no agent's body. *)
Definition goal_ok (st : State) : bool :=
  match goal st with
  | Some g => in_grid (grid st) g && negb (mem g (occupied_cells (agents st)))
  | None => true
  end.

(** The request list with the [i]-th request replaced by [x]. *)
Fixpoint set_nth {A} (i : nat) (x : A) (l : list A) : list A :=
  match i, l with
  | _, [] => []
  | O, _ :: l' => x :: l'
  | S i', y :: l' => y :: set_nth i' x l'
  end.

End GridChase.

(* ------------------------------------------------------------------ *)
(** ** Script Host and Simulation Loop *)

(** Modelled from the spec: the Script Host and the Simulation Loop of
    the match engine (not part of src/), after sections 3, 4.1, 4.4 and 6
    of the spec, for the grid-chase game.  The TickSnapshot fields are the
    ones of [state] in src/games/snake/assets/default_ai.lua. *)
Module Simulation.
Import GridChase.

(** Lua values as the sandbox hands them back. *)
Inductive LuaValue :=
| LNil
| LBool (b : bool)
| LNum (n : Z)
| LStr (s : string)
| LTable
| LFun.

Inductive Fault := LoadError | RuntimeError | TimeoutError | InvalidAction.

Inductive LoadFailure := SyntaxFailure | MissingEntryPoint.

(** The result of one invocation of the entry point. *)
Inductive Invocation :=
| Returned (v : LuaValue)
| Raised
| TimedOut.

(** The read-only view handed to a grid-chase script ([state] of
    default_ai.lua). *)
Record TickSnapshot := {
  snake : list Cell;          (* own body, head first *)
  food : option Cell;         (* the goal cell *)
  direction : Heading;
  grid_size : Z;
  snap_score : nat
}.

Definition build_snapshot (st : State) (a : Agent) : TickSnapshot :=
  {| snake := body a; food := goal st; direction := heading a;
     grid_size := grid st; snap_score := score a |}.

Definition heading_name (h : Heading) : string :=
  match h with North => "north" | South => "south" | East => "east" | West => "west" end.

(** Coercion of a returned value into the closed Action enum; [None] is
    [InvalidAction]. *)
Definition coerce_action (v : LuaValue) : option Heading :=
  match v with
  | LStr s =>
      if String.eqb s "north" then Some North
      else if String.eqb s "south" then Some South
      else if String.eqb s "east" then Some East
      else if String.eqb s "west" then Some West
      else None
  | _ => None
  end.

(** An interpreter instance: the global bindings of the loaded chunk. *)
Definition Instance := list (string * LuaValue).

Fixpoint assoc (k : string) (m : Instance) : option LuaValue :=
  match m with
  | [] => None
  | (k', v) :: m' => if String.eqb k k' then Some v else assoc k m'
  end.

Record MatchConfig := {
  scripts : list string;      (* AgentScript sources, registration order *)
  seed : Z;
  max_ticks : nat;
  grid_dim : Z;
  fault_limit : nat;          (* consecutive-fault disqualification threshold *)
  spawn : list Agent          (* game-specific starting agents *)
}.

Record ReplayFrame := {
  frame_tick : nat;
  before : list TickSnapshot;
  actions : list Heading;
  faults : list (nat * Fault);
  after : list TickSnapshot
}.

Inductive Phase := Initializing | Running | Terminal.

Inductive Termination := LoadFailed | AgentDied | TickBound | FaultLimit.

Record MatchResult := {
  winner : option nat;        (* None = draw *)
  scores : list (option nat); (* None: no score for a disqualified side *)
  reason : Termination;
  tick_count : nat;
  disqualified : list nat
}.

Section Loop.

(** The Lua sandbox: the globals a chunk defines ([None] on a syntax
    error), and one call of [think] on a snapshot, which yields the
    invocation result, the snapshot table as the script left it, and the
    instance's globals afterwards. *)
Variable parse_chunk : string -> option Instance.
Variable invoke : Instance -> TickSnapshot -> Invocation * TickSnapshot * Instance.

Definition load (source : string) : Instance + LoadFailure :=
  match parse_chunk source with
  | None => inr SyntaxFailure
  | Some g =>
      match assoc "think" g with
      | Some LFun => inl g
      | _ => inr MissingEntryPoint
      end
  end.

(** One participant's request: a fault becomes the no-op of keeping the
    current heading. *)
Definition request (a : Agent) (inv : Invocation) : Heading * option Fault :=
  match inv with
  | Returned v =>
      match coerce_action v with
      | Some h => (h, None)
      | None => (heading a, Some InvalidAction)
      end
  | Raised => (heading a, Some RuntimeError)
  | TimedOut => (heading a, Some TimeoutError)
  end.

(** Participants are invoked sequentially in registration order. *)
Fixpoint invoke_all (st : State) (ags : list Agent) (insts : list Instance)
    : list (Heading * option Fault) * list Instance :=
  match ags, insts with
  | a :: ags', i :: insts' =>
      let '(inv, _, i') := invoke i (build_snapshot st a) in
      let '(rs, is') := invoke_all st ags' insts' in
      (request a inv :: rs, i' :: is')
  | _, _ => ([], [])
  end.

Fixpoint indexed_faults (k : nat) (rs : list (Heading * option Fault)) : list (nat * Fault) :=
  match rs with
  | [] => []
  | (_, Some f) :: rs' => (k, f) :: indexed_faults (S k) rs'
  | (_, None) :: rs' => indexed_faults (S k) rs'
  end.

Definition update_counts (counts : list nat) (rs : list (Heading * option Fault)) : list nat :=
  map (fun cr => match snd (snd cr) with Some _ => S (fst cr) | None => 0 end)
      (combine counts rs).

Fixpoint indices_where {A} (p : A -> bool) (k : nat) (l : list A) : list nat :=
  match l with
  | [] => []
  | x :: l' => if p x then k :: indices_where p (S k) l' else indices_where p (S k) l'
  end.

(** The tick loop of [Running]; [fuel] is the number of ticks left
    before the max-tick bound.  Frames are accumulated in reverse. *)
Fixpoint run_loop (fuel : nat) (limit : nat) (st : State) (insts : list Instance)
    (counts : list nat) (frames : list ReplayFrame)
    : State * list ReplayFrame * Termination * list nat :=
  match fuel with
  | O => (st, frames, TickBound, [])
  | S fuel' =>
      let '(rs, insts') := invoke_all st (agents st) insts in
      let reqs := map fst rs in
      let '(st', term) := transition st reqs in
      let frame := {| frame_tick := tick st;
                      before := map (build_snapshot st) (agents st);
                      actions := reqs;
                      faults := indexed_faults 0 rs;
                      after := map (build_snapshot st') (agents st') |} in
      let counts' := update_counts counts rs in
      let dq := indices_where (fun c => Nat.ltb limit c) 0 counts' in
      match dq with
      | _ :: _ => (st', frame :: frames, FaultLimit, dq)
      | [] =>
          if term then (st', frame :: frames, AgentDied, [])
          else run_loop fuel' limit st' insts' counts' (frame :: frames)
      end
  end.

Definition sole {A} (l : list A) : option A :=
  match l with [x] => Some x | _ => None end.

(** Unique best score among the candidate participants, else a draw. *)
Definition best_of (ags : list Agent) (cands : list nat) : option nat :=
  let sc k := match nth_error ags k with Some a => score a | None => 0 end in
  let top := fold_right (fun k m => Nat.max (sc k) m) 0 cands in
  sole (filter (fun k => Nat.eqb (sc k) top) cands).

Definition decide_winner (ags : list Agent) (t : Termination) (dq : list nat) : option nat :=
  let ids := seq 0 (length ags) in
  match t with
  | FaultLimit | LoadFailed => sole (filter (fun k => negb (existsb (Nat.eqb k) dq)) ids)
  | _ => best_of ags (indices_where alive 0 ags)
  end.

Definition is_failure (l : Instance + LoadFailure) : bool :=
  match l with inr _ => true | inl _ => false end.

Definition instances (ls : list (Instance + LoadFailure)) : list Instance :=
  flat_map (fun l => match l with inl g => [g] | inr _ => [] end) ls.

(** One match: [Initializing], then [Running] unless a script failed to
    load, then [Terminal].  Returns the result, the replay in order, and
    the phases entered. *)
Definition run_match (cfg : MatchConfig) : MatchResult * list ReplayFrame * list Phase :=
  let loaded := map load (scripts cfg) in
  let failed := indices_where is_failure 0 loaded in
  match failed with
  | _ :: _ =>
      ({| winner := sole (filter (fun k => negb (existsb (Nat.eqb k) failed))
                                 (seq 0 (length loaded)));
          scores := map (fun l => if is_failure l then None else Some 0) loaded;
          reason := LoadFailed;
          tick_count := 0;
          disqualified := failed |},
       [], [Initializing; Terminal])
  | [] =>
      let '(g0, r0) := place_goal (grid_dim cfg) (spawn cfg) (seed cfg) in
      let st0 := {| agents := spawn cfg; goal := g0; grid := grid_dim cfg;
                    rng := r0; tick := 0 |} in
      let '(st, frames, why, dq) :=
        run_loop (max_ticks cfg) (fault_limit cfg) st0 (instances loaded)
                 (map (fun _ => 0) loaded) [] in
      ({| winner := decide_winner (agents st) why dq;
          scores := map (fun a => Some (score a)) (agents st);
          reason := why;
          tick_count := tick st;
          disqualified := dq |},
       rev frames, [Initializing; Running; Terminal])
  end.

End Loop.

End Simulation.

(* ------------------------------------------------------------------ *)
(** ** The remaining frontend API functions: agents.ts, games.ts, auth.ts *)

Module FrontendApi.
Import Frontend.

(** [data.k] on an object parsed by JSON.parse: a repeated key keeps
    its last value. *)
Definition lookup_field (k : string) (fields : list (string * Json)) : option Json :=
  fold_left (fun acc kv => if String.eqb k (fst kv) then Some (snd kv) else acc) fields None.

(** JavaScript truthiness of a JSON value (numbers are integers here). *)
Definition truthy (v : Json) : bool :=
  match v with
  | JNull => false
  | JBool b => b
  | JNum n => negb (n =? 0)%Z
  | JStr s => negb (String.eqb s "")
  | JArr _ | JObj _ => true
  end.

(** [String(v)], as [new Error(v)] applies it to its argument. *)
Fixpoint js_to_string (v : Json) : string :=
  match v with
  | JNull => "null"
  | JBool true => "true"
  | JBool false => "false"
  | JNum n => number_to_string n
  | JStr s => s
  | JObj _ => "[object Object]"
  | JArr xs =>
      (fix join (xs : list Json) : string :=
         match xs with
         | [] => ""
         | [x] => match x with JNull => "" | _ => js_to_string x end
         | x :: xs' => (match x with JNull => "" | _ => js_to_string x end) ++ "," ++ join xs'
         end) xs
  end.

(** [text.includes(pat)] *)
Fixpoint includes (pat text : string) : bool :=
  String.prefix pat text ||
  match text with
  | EmptyString => false
  | String _ text' => includes pat text'
  end.

Record CreateAgentRequest := { req_game_id : Z; req_name : string; req_code : option string }.
Record UpdateAgentRequest := { upd_name : option string; upd_code : option string }.

(** JSON.stringify drops the fields whose value is undefined. *)
Definition opt_field (k : string) (v : option string) : list (string * string) :=
  match v with Some s => [(k, s)] | None => [] end.

Section Api.

(** The server's answer to each request; a network failure, on which
    [await fetch] rejects with a TypeError, is not modelled. *)
Variable fetch : Request -> Response.
Variable json_parse : string -> option Json.

(** parseErrorResponse: [data.error || fallback], and [fallback] when
    [response.json()] or the property access throws. *)
Definition parseErrorResponse (response : Response) (fallback : string) : Promise Json :=
  match json_parse (body response) with
  | None => Resolved (JStr fallback)
  | Some JNull => Resolved (JStr fallback)            (* null.error throws *)
  | Some (JObj fields) =>
      match lookup_field "error" fields with
      | Some v => if truthy v then Resolved v else Resolved (JStr fallback)
      | None => Resolved (JStr fallback)
      end
  | Some _ => Resolved (JStr fallback)                (* no own error property *)
  end.

Definition agent_url (id : Z) : string := "/api/agents/" ++ number_to_string id.

Definition fetchAgent (id : Z) : Promise Json :=
  let response := fetch {| url := agent_url id; method := "GET"; credentials := "include";
                           payload := [] |} in
  if negb (ok response) then Rejected (Error "Failed to fetch agent")
  else response_json json_parse response.

Definition create_request (request : CreateAgentRequest) : Request :=
  {| url := "/api/agents"; method := "POST"; credentials := "include";
     payload := [("game_id", number_to_string (req_game_id request)); ("name", req_name request)]
                ++ opt_field "code" (req_code request) |}.

Definition createAgent (request : CreateAgentRequest) : Promise Json :=
  let response := fetch (create_request request) in
  if negb (ok response) then
    bind (parseErrorResponse response "Failed to create agent")
         (fun message => Rejected (Error (js_to_string message)))
  else response_json json_parse response.

Definition update_request (id : Z) (request : UpdateAgentRequest) : Request :=
  {| url := agent_url id; method := "PUT"; credentials := "include";
     payload := opt_field "name" (upd_name request) ++ opt_field "code" (upd_code request) |}.

Definition updateAgent (id : Z) (request : UpdateAgentRequest) : Promise Json :=
  let response := fetch (update_request id request) in
  if negb (ok response) then
    bind (parseErrorResponse response "Failed to update agent")
         (fun message => Rejected (Error (js_to_string message)))
  else response_json json_parse response.

Definition deleteAgent (id : Z) : Promise unit :=
  let response := fetch {| url := agent_url id; method := "DELETE"; credentials := "include";
                           payload := [] |} in
  if negb (ok response) then Rejected (Error "Failed to delete agent")
  else Resolved tt.

(** games.ts: [fetch] without options sends credentials "same-origin". *)
Definition fetchGames : Promise Json :=
  let response := fetch {| url := "/api/games"; method := "GET"; credentials := "same-origin";
                           payload := [] |} in
  if negb (ok response) then Rejected (Error "Failed to fetch games")
  else response_json json_parse response.

Definition fetchGame (name : string) : Promise Json :=
  let response := fetch {| url := "/api/games/" ++ name; method := "GET";
                           credentials := "same-origin"; payload := [] |} in
  if negb (ok response) then Rejected (Error "Failed to fetch game")
  else response_json json_parse response.

(** auth.ts *)
Definition register_request (username password : string) : Request :=
  {| url := "/api/users/register"; method := "POST"; credentials := "include";
     payload := [("username", username); ("password", password)] |}.

Definition register (username password : string) : Promise Json :=
  let res := fetch (register_request username password) in
  if negb (ok res) then
    let text := body res in
    if includes "WeakPassword" text then
      Rejected (Error "Password must be at least 10 characters with letters, numbers, and symbols")
    else if includes "UsernameTooShort" text then
      Rejected (Error "Username must be at least 3 characters")
    else if includes "UsernameExists" text then
      Rejected (Error "Username already exists")
    else Rejected (Error "Registration failed")
  else response_json json_parse res.

(** logout ignores the response it gets. *)
Definition logout : Promise unit :=
  let _ := fetch {| url := "/api/users/logout"; method := "POST"; credentials := "include";
                    payload := [] |} in
  Resolved tt.

(** getMe: [null] is [JNull]. *)
Definition getMe : Promise Json :=
  let res := fetch {| url := "/api/users/me"; method := "GET"; credentials := "include";
                      payload := [] |} in
  if negb (ok res) then Resolved JNull
  else response_json json_parse res.

(** createAgent of the earlier agents.ts (src/unnamed/part_006). *)
Definition createAgent_v0 (request : CreateAgentRequest) : Promise Json :=
  let response := fetch (create_request request) in
  if negb (ok response) then
    let text := body response in
    if includes "UNIQUE constraint failed" text then
      Rejected (Error "An agent with that name already exists")
    else Rejected (Error "Failed to create agent")
  else response_json json_parse response.

End Api.

End FrontendApi.

(* ------------------------------------------------------------------ *)
(** ** AuthProvider: src/frontend/src/context/AuthContext.tsx *)

Module AuthProvider.
Import Frontend.

(** The provider's React state; [user] is [JNull] for null. *)
Record AuthState := { user : Json; loading : bool }.

Definition initial : AuthState := {| user := JNull; loading := true |}.

(** The mount effect: [getMe().then(setUser).finally(() => setLoading(false))]. *)
Definition mounted (st : AuthState) (me : Promise Json) : AuthState :=
  match me with
  | Resolved u => {| user := u; loading := false |}
  | Rejected _ => {| user := user st; loading := false |}
  end.

(** [login]: [const user = await apiLogin(...); setUser(user)]. *)
Definition login (st : AuthState) (apiLogin : Promise Json) : AuthState * Promise unit :=
  match apiLogin with
  | Resolved u => ({| user := u; loading := loading st |}, Resolved tt)
  | Rejected e => (st, Rejected e)
  end.

Definition register (st : AuthState) (apiRegister : Promise Json) : AuthState * Promise unit :=
  match apiRegister with
  | Resolved u => ({| user := u; loading := loading st |}, Resolved tt)
  | Rejected e => (st, Rejected e)
  end.

(** [logout]: [await apiLogout(); setUser(null)]. *)
Definition logout (st : AuthState) (apiLogout : Promise unit) : AuthState * Promise unit :=
  match apiLogout with
  | Resolved _ => ({| user := JNull; loading := loading st |}, Resolved tt)
  | Rejected e => (st, Rejected e)
  end.

(** TopBar shows the user's name when not loading and [user] is truthy. *)
Definition shows_user (st : AuthState) : bool :=
  negb (loading st) && FrontendApi.truthy (user st).

End AuthProvider.

(* ------------------------------------------------------------------ *)
(** ** AgentEditor: src/unnamed/part_003 *)

Module AgentApi.
(** [Agent] of agents.ts. *)
Record Agent := {
  id : Z; user_id : Z; game_id : Z; name : string; code : string;
  created_at : string; updated_at : string
}.
End AgentApi.

Module AgentEditor.
Import Frontend.

(** The component's React state. *)
Record EditorState := {
  agents : list AgentApi.Agent;
  selectedAgent : option AgentApi.Agent;
  code : string;
  name : string;
  isCreating : bool;
  loading : bool;
  saving : bool;
  error : option string
}.

Definition set_agents v st := {| agents := v; selectedAgent := selectedAgent st; code := code st;
  name := name st; isCreating := isCreating st; loading := loading st; saving := saving st;
  error := error st |}.
Definition set_selected v st := {| agents := agents st; selectedAgent := v; code := code st;
  name := name st; isCreating := isCreating st; loading := loading st; saving := saving st;
  error := error st |}.
Definition set_code v st := {| agents := agents st; selectedAgent := selectedAgent st; code := v;
  name := name st; isCreating := isCreating st; loading := loading st; saving := saving st;
  error := error st |}.
Definition set_name v st := {| agents := agents st; selectedAgent := selectedAgent st; code := code st;
  name := v; isCreating := isCreating st; loading := loading st; saving := saving st;
  error := error st |}.
Definition set_creating v st := {| agents := agents st; selectedAgent := selectedAgent st;
  code := code st; name := name st; isCreating := v; loading := loading st; saving := saving st;
  error := error st |}.
Definition set_loading v st := {| agents := agents st; selectedAgent := selectedAgent st;
  code := code st; name := name st; isCreating := isCreating st; loading := v; saving := saving st;
  error := error st |}.
Definition set_saving v st := {| agents := agents st; selectedAgent := selectedAgent st;
  code := code st; name := name st; isCreating := isCreating st; loading := loading st; saving := v;
  error := error st |}.
Definition set_error v st := {| agents := agents st; selectedAgent := selectedAgent st;
  code := code st; name := name st; isCreating := isCreating st; loading := loading st;
  saving := saving st; error := v |}.

(** [String.prototype.trim], the characters read as Latin-1 code units: it
    strips tab, line feed, vertical tab, form feed, carriage return, space
    and no-break space at both ends. *)
Definition is_js_space (c : Ascii.ascii) : bool :=
  match Ascii.nat_of_ascii c with
  | 9 | 10 | 11 | 12 | 13 | 32 | 160 => true
  | _ => false
  end.

Fixpoint drop_spaces (l : list Ascii.ascii) : list Ascii.ascii :=
  match l with
  | c :: l' => if is_js_space c then drop_spaces l' else l
  | [] => []
  end.

Definition trim (s : string) : string :=
  string_of_list_ascii (rev (drop_spaces (rev (drop_spaces (list_ascii_of_string s))))).

(** The requests the editor sends. *)
Inductive ApiCall :=
| CreateCall (game_id : Z) (name : string) (code : string)
| UpdateCall (id : Z) (name : string) (code : string)
| DeleteCall (id : Z).

(** The agent name a request carries. *)
Definition call_name (c : ApiCall) : option string :=
  match c with
  | CreateCall _ n _ | UpdateCall _ n _ => Some n
  | DeleteCall _ => None
  end.

Section Editor.

(** The message of the SyntaxError of a body that is not JSON (it is
    engine-specific). *)
Variable syntax_error_message : string.

(** [err instanceof Error ? err.message : ...]; every rejection here is an
    Error. *)
Definition err_message (e : JsError) : string :=
  match e with
  | Error m => m
  | SyntaxError => syntax_error_message
  end.

Definition selectAgent (agent : AgentApi.Agent) (st : EditorState) : EditorState :=
  set_error None (set_creating false (set_name (AgentApi.name agent)
    (set_code (AgentApi.code agent) (set_selected (Some agent) st)))).

Definition startCreating (st : EditorState) : EditorState :=
  set_error None (set_creating true (set_name "" (set_code "" (set_selected None st)))).

(** loadAgents, given what [fetchAgents(gameId)] settles to. *)
Definition loadAgents (st : EditorState) (fetched : Promise (list AgentApi.Agent)) : EditorState :=
  let st1 := set_error None (set_loading true st) in
  let st2 :=
    match fetched with
    | Resolved data =>
        let st' := set_agents data st1 in
        match data, selectedAgent st with
        | first :: _, None => selectAgent first st'
        | _, _ => st'
        end
    | Rejected e => set_error (Some (err_message e)) st1
    end in
  set_loading false st2.

(** handleSave, given how the server answers each request; also returns
    the request sent, if any. *)
Definition handleSave (gameId : Z) (st : EditorState)
    (respond : ApiCall -> Promise AgentApi.Agent) : EditorState * option ApiCall :=
  if String.eqb (trim (name st)) "" then (set_error (Some "Agent name is required") st, None)
  else
    let st1 := set_error None (set_saving true st) in
    if isCreating st then
      let call := CreateCall gameId (trim (name st)) (code st) in
      match respond call with
      | Resolved newAgent =>
          (set_saving false (selectAgent newAgent (set_agents (agents st ++ [newAgent]) st1)), Some call)
      | Rejected e => (set_saving false (set_error (Some (err_message e)) st1), Some call)
      end
    else
      match selectedAgent st with
      | Some sel =>
          let call := UpdateCall (AgentApi.id sel) (trim (name st)) (code st) in
          match respond call with
          | Resolved updated =>
              (set_saving false
                 (set_selected (Some updated)
                    (set_agents (map (fun a => if (AgentApi.id a =? AgentApi.id updated)%Z
                                               then updated else a) (agents st)) st1)),
               Some call)
          | Rejected e => (set_saving false (set_error (Some (err_message e)) st1), Some call)
          end
      | None => (set_saving false st1, None)
      end.

(** handleDelete, given the answer of the [confirm] dialog and of the
    server. *)
Definition handleDelete (st : EditorState) (confirmed : bool)
    (respond : ApiCall -> Promise unit) : EditorState * option ApiCall :=
  match selectedAgent st with
  | None => (st, None)
  | Some sel =>
      if negb confirmed then (st, None)
      else
        let st1 := set_error None (set_saving true st) in
        let call := DeleteCall (AgentApi.id sel) in
        match respond call with
        | Resolved _ =>
            let remaining := filter (fun a => negb (AgentApi.id a =? AgentApi.id sel)%Z) (agents st) in
            let st2 := set_agents remaining st1 in
            let st3 :=
              match remaining with
              | first :: _ => selectAgent first st2
              | [] => set_name "" (set_code "" (set_selected None st2))
              end in
            (set_saving false st3, Some call)
        | Rejected e => (set_saving false (set_error (Some (err_message e)) st1), Some call)
        end
  end.

End Editor.

End AgentEditor.

(* ------------------------------------------------------------------ *)
(** ** Geometry of the default AI's directions *)

Module AIGeometry.
Import DefaultAI.

(** The cell one step along a direction name, as [think] reads them
    ("east" when the food has a larger x, "north" when a larger y). *)
Definition step (d : string) (p : Pos) : Pos :=
  if String.eqb d "east" then {| x := x p + 1; y := y p |}
  else if String.eqb d "west" then {| x := x p - 1; y := y p |}
  else if String.eqb d "north" then {| x := x p; y := y p + 1 |}
  else if String.eqb d "south" then {| x := x p; y := y p - 1 |}
  else p.

Definition manhattan (p q : Pos) : Z := (Z.abs (x p - x q) + Z.abs (y p - y q))%Z.

End AIGeometry.

(* ================================================================== *)
(** * Theorems *)

(* ------------------------------------------------------------------ *)
(** ** The default snake AI *)

Section DefaultAIProofs.
Import DefaultAI.

(** C8: for a state whose direction is one of the four names and whose
    snake is non-empty, [think] returns one of the four names and never
    the exact reverse of [state.direction]. *)
Theorem think_never_reverses (state : State)
    (Hdir : In (direction state) directions) (Hsnake : snake state <> []) :
  exists d, think state = Some d /\ In d directions /\
    ~ (direction state = "west" /\ d = "east") /\
    ~ (direction state = "east" /\ d = "west") /\
    ~ (direction state = "south" /\ d = "north") /\
    ~ (direction state = "north" /\ d = "south").
Proof.
  unfold think.
  destruct (snake state) as [|head rest]; [contradiction|].
  destruct state as [sn fd dir gs sc]; simpl in *.
  destruct Hdir as [<-|[<-|[<-|[<-|[]]]]]; simpl;
    repeat match goal with |- context [(?a <? ?b)%Z] => destruct (a <? b)%Z end;
    simpl; eexists; (split; [reflexivity|]); (split; [simpl; tauto|]);
    repeat split; intros [H1 H2]; discriminate.
Qed.

Lemma think_never_reverses_witness :
  exists d, think {| snake := [{| x := 1; y := 1 |}]; food := {| x := 0; y := 1 |};
                     direction := "east"; grid_size := 32; score := 0 |} = Some d /\ d = "east".
Proof.
  pose proof (think_never_reverses
    {| snake := [{| x := 1; y := 1 |}]; food := {| x := 0; y := 1 |};
       direction := "east"; grid_size := 32; score := 0 |}) as H.
  destruct H as [d [Hd _]]; [simpl; tauto | discriminate |].
  exists d; split; [exact Hd|]. vm_compute in Hd. congruence.
Defined.

End DefaultAIProofs.

(* ------------------------------------------------------------------ *)
(** ** Frontend API clients *)

Section FrontendProofs.
Import Frontend.

(** C9: fetchAgents resolves to [] on a non-ok 401 response, rejects
    with "Failed to fetch agents" on every other non-ok response, and on
    an ok response resolves to the parsed body unchanged. *)
Theorem fetchAgents_outcomes (fetch : Request -> Response)
    (json_parse : string -> option Json) (gameId : Z) :
  let response := fetch (agents_request gameId) in
  (ok response = false -> status response = 401%Z ->
     fetchAgents fetch json_parse gameId = Resolved (JArr [])) /\
  (ok response = false -> status response <> 401%Z ->
     fetchAgents fetch json_parse gameId = Rejected (Error "Failed to fetch agents")) /\
  (forall v, ok response = true -> json_parse (body response) = Some v ->
     fetchAgents fetch json_parse gameId = Resolved v).
Proof.
  intros response; unfold fetchAgents, fetchAgents_k, response_json; fold response.
  repeat split; intros.
  - rewrite H, H0; reflexivity.
  - rewrite H; simpl. apply Z.eqb_neq in H0; rewrite H0; reflexivity.
  - rewrite H, H0; reflexivity.
Qed.

Lemma fetchAgents_outcomes_witness :
  fetchAgents (fun _ => {| status := 401; body := "" |}) (fun _ => None) 3 = Resolved (JArr []) /\
  fetchAgents (fun _ => {| status := 500; body := "" |}) (fun _ => None) 3
    = Rejected (Error "Failed to fetch agents") /\
  fetchAgents (fun _ => {| status := 200; body := "[]" |}) (fun _ => Some (JArr [])) 3
    = Resolved (JArr []).
Proof.
  split; [|split].
  - apply (proj1 (fetchAgents_outcomes (fun _ => {| status := 401; body := "" |})
                    (fun _ => None) 3)); reflexivity.
  - apply (proj1 (proj2 (fetchAgents_outcomes (fun _ => {| status := 500; body := "" |})
                    (fun _ => None) 3))); [reflexivity | discriminate].
  - apply (proj2 (proj2 (fetchAgents_outcomes (fun _ => {| status := 200; body := "[]" |})
                    (fun _ => Some (JArr [])) 3))); reflexivity.
Defined.

(** C10: login rejects with "Invalid username or password" exactly on a
    non-ok 404 response, with "Login failed" exactly on the other non-ok
    responses, and resolves to the parsed user only on an ok response. *)
Theorem login_outcomes (fetch : Request -> Response)
    (json_parse : string -> option Json) (username password : string) :
  let res := fetch (login_request username password) in
  (login fetch json_parse username password = Rejected (Error "Invalid username or password")
     <-> ok res = false /\ status res = 404%Z) /\
  (login fetch json_parse username password = Rejected (Error "Login failed")
     <-> ok res = false /\ status res <> 404%Z) /\
  (forall v, login fetch json_parse username password = Resolved v
     <-> ok res = true /\ json_parse (body res) = Some v).
Proof.
  intros res; unfold login, login_k, response_json; fold res.
  destruct (ok res); simpl.
  - destruct (json_parse (body res)) as [j|];
      repeat split; intros;
      repeat match goal with H : _ /\ _ |- _ => destruct H end;
      try (intro; congruence); congruence.
  - destruct (status res =? 404)%Z eqn:E;
      [apply Z.eqb_eq in E | apply Z.eqb_neq in E];
      repeat split; intros;
      repeat match goal with H : _ /\ _ |- _ => destruct H end;
      try (intro; congruence); congruence.
Qed.

Lemma login_outcomes_witness :
  login (fun _ => {| status := 404; body := "" |}) (fun _ => None) "ann" "pw"
    = Rejected (Error "Invalid username or password").
Proof.
  apply (proj2 (proj1 (login_outcomes (fun _ => {| status := 404; body := "" |})
                         (fun _ => None) "ann" "pw"))).
  split; reflexivity.
Defined.

End FrontendProofs.

(* ------------------------------------------------------------------ *)
(** ** Grid-chase rules engine *)

Module GridChaseProofs.
Import GridChase.

Lemma heading_eqb_true (a b : Heading) : heading_eqb a b = true <-> a = b.
Proof. destruct a, b; simpl; split; congruence. Qed.

Lemma reverse_neq (h : Heading) : reverse h <> h.
Proof. destruct h; discriminate. Qed.

Lemma applied_not_reverse (c r : Heading) : applied_heading c r <> reverse c.
Proof.
  unfold applied_heading.
  destruct (heading_eqb r (reverse c)) eqn:E.
  - intros H; apply (reverse_neq c); congruence.
  - intros H; subst r. destruct c; discriminate.
Qed.

Lemma applied_of_reverse (c : Heading) : applied_heading c (reverse c) = c.
Proof. destruct c; reflexivity. Qed.

Lemma applied_of_current (c : Heading) : applied_heading c c = c.
Proof. destruct c; reflexivity. Qed.

Lemma nth_error_combine {A B} (l : list A) (r : list B) i a b :
  nth_error l i = Some a -> nth_error r i = Some b -> nth_error (combine l r) i = Some (a, b).
Proof.
  revert r i; induction l as [|x l IH]; intros r i Ha Hb; destruct i, r; simpl in *;
    try discriminate.
  - congruence.
  - apply IH; assumption.
Qed.

Lemma set_nth_length {A} i (x : A) l : length (set_nth i x l) = length l.
Proof. revert i; induction l; intros [|i]; simpl; auto. Qed.

Lemma set_nth_same {A} i (x y : A) l : nth_error l i = Some y -> nth_error (set_nth i x l) i = Some x.
Proof. revert i; induction l; intros [|i] H; simpl in *; try discriminate; auto. Qed.

Lemma set_nth_other {A} i j (x : A) l : j <> i -> nth_error (set_nth i x l) j = nth_error l j.
Proof.
  revert i j; induction l; intros [|i] [|j] H; simpl; auto; try congruence;
    try (apply IHl; congruence).
Qed.

(** Requests that yield the same applied heading are interchangeable. *)
Definition same_applied (p q : Agent * Heading) : Prop :=
  fst p = fst q /\ applied_heading (heading (fst p)) (snd p) = applied_heading (heading (fst q)) (snd q).

Lemma reaches_goal_applied g a r r' :
  applied_heading (heading a) r = applied_heading (heading a) r' ->
  reaches_goal g a r = reaches_goal g a r'.
Proof. intros H; unfold reaches_goal, new_head; rewrite H; reflexivity. Qed.

Lemma blocking_applied g p q : same_applied p q -> blocking g p = blocking g q.
Proof.
  destruct p as [a r], q as [a' r']; intros [H1 H2]; simpl in *; subst a'.
  rewrite (reaches_goal_applied g a r r' H2); reflexivity.
Qed.

Lemma step_agent_applied n g occ p q : same_applied p q -> step_agent n g occ p = step_agent n g occ q.
Proof.
  destruct p as [a r], q as [a' r']; intros [H1 H2]; simpl in *; subst a'.
  rewrite (reaches_goal_applied g a r r' H2), H2; reflexivity.
Qed.

Lemma combine_same_applied (l : list Agent) (r r' : list Heading) :
  length r = length r' ->
  (forall i a x x', nth_error l i = Some a -> nth_error r i = Some x -> nth_error r' i = Some x' ->
     applied_heading (heading a) x = applied_heading (heading a) x') ->
  Forall2 same_applied (combine l r) (combine l r').
Proof.
  revert r r'; induction l as [|a l IH]; intros r r' Hlen H; simpl.
  - constructor.
  - destruct r as [|x r], r' as [|x' r']; simpl in Hlen; try discriminate; try constructor.
    + split; [reflexivity|]. apply (H 0); reflexivity.
    + apply IH; [congruence|]. intros i b y y'; apply (H (S i)).
Qed.

Lemma map_Forall2 {A B} (R : A -> A -> Prop) (f : A -> B) l l' :
  (forall p q, R p q -> f p = f q) -> Forall2 R l l' -> map f l = map f l'.
Proof. intros Hf H; induction H; simpl; f_equal; auto. Qed.

Lemma flat_map_Forall2 {A B} (R : A -> A -> Prop) (f : A -> list B) l l' :
  (forall p q, R p q -> f p = f q) -> Forall2 R l l' -> flat_map f l = flat_map f l'.
Proof. intros Hf H; induction H; simpl; f_equal; auto. Qed.

(** Only the applied headings of the requests matter to a tick. *)
Lemma transition_applied_equiv st reqs reqs' :
  length reqs = length reqs' ->
  (forall i a r r', nth_error (agents st) i = Some a -> nth_error reqs i = Some r ->
     nth_error reqs' i = Some r' -> applied_heading (heading a) r = applied_heading (heading a) r') ->
  transition st reqs = transition st reqs'.
Proof.
  intros Hlen H.
  pose proof (combine_same_applied (agents st) reqs reqs' Hlen H) as HF.
  unfold transition; cbv beta zeta.
  rewrite (flat_map_Forall2 same_applied (blocking (goal st)) _ _ (blocking_applied (goal st)) HF).
  rewrite (map_Forall2 same_applied (step_agent (grid st) (goal st) _) _ _
             (step_agent_applied (grid st) (goal st) _) HF).
  reflexivity.
Qed.

Lemma transition_agents st reqs :
  agents (fst (transition st reqs)) =
  map (fun am => apply_move (fst am) (snd am))
      (combine (agents st)
         (map (step_agent (grid st) (goal st) (flat_map (blocking (goal st)) (combine (agents st) reqs)))
              (combine (agents st) reqs))).
Proof.
  unfold transition; cbv beta zeta.
  destruct (if existsb is_grows _ then _ else _); reflexivity.
Qed.

Lemma transition_nth st reqs i a r :
  nth_error (agents st) i = Some a -> nth_error reqs i = Some r ->
  nth_error (agents (fst (transition st reqs))) i =
  Some (apply_move a (step_agent (grid st) (goal st)
          (flat_map (blocking (goal st)) (combine (agents st) reqs)) (a, r))).
Proof.
  intros Ha Hr. rewrite transition_agents.
  assert (Hc : nth_error (combine (agents st) reqs) i = Some (a, r)) by (apply nth_error_combine; auto).
  apply (map_nth_error (fun am => apply_move (fst am) (snd am))) with (d := (a, _)).
  apply nth_error_combine; [exact Ha|].
  apply (map_nth_error (step_agent _ _ _)) with (d := (a, r)); exact Hc.
Qed.

(** The shape of one alive agent's move. *)
Lemma step_agent_cases n g occ a r hd tl :
  alive a = true -> body a = hd :: tl ->
  let h := applied_heading (heading a) r in
  step_agent n g occ (a, r) = Dies h \/
  step_agent n g occ (a, r) = Grows (shift hd h) h \/
  step_agent n g occ (a, r) = Advances (shift hd h) h.
Proof.
  intros Hal Hb; cbv zeta; unfold step_agent; rewrite Hal, Hb; simpl.
  destruct (_ || _); [auto|].
  destruct (reaches_goal g a r); auto.
Qed.

(** C2: a request for the exact reverse of the current heading is ignored
    (the current heading is kept, and the tick goes exactly as if the
    current heading had been requested, so the request is not fatal); the
    applied heading is never the reverse of the previous one; and the new
    head is the old head plus the unit vector of the applied heading. *)
Theorem reversal_ignored_and_head_advances (st : State) (reqs : list Heading) (i : nat)
    (a : Agent) (req : Heading)
    (Ha : nth_error (agents st) i = Some a) (Hr : nth_error reqs i = Some req)
    (Halive : alive a = true) (Hbody : body a <> []) :
  exists a', nth_error (agents (fst (transition st reqs))) i = Some a' /\
    heading a' = applied_heading (heading a) req /\
    heading a' <> reverse (heading a) /\
    (req = reverse (heading a) ->
       heading a' = heading a /\ transition st reqs = transition st (set_nth i (heading a) reqs)) /\
    (alive a' = true -> exists hd, hd_error (body a) = Some hd /\
       hd_error (body a') = Some (fst hd + fst (unit_vector (heading a')),
                                  snd hd + snd (unit_vector (heading a')))%Z).
Proof.
  destruct (body a) as [|hd tl] eqn:Hb; [contradiction|].
  set (occ := flat_map (blocking (goal st)) (combine (agents st) reqs)).
  exists (apply_move a (step_agent (grid st) (goal st) occ (a, req))).
  assert (Hhead : heading (apply_move a (step_agent (grid st) (goal st) occ (a, req)))
                  = applied_heading (heading a) req /\
                  (alive (apply_move a (step_agent (grid st) (goal st) occ (a, req))) = true ->
                   hd_error (body (apply_move a (step_agent (grid st) (goal st) occ (a, req))))
                   = Some (shift hd (applied_heading (heading a) req)))).
  { destruct (step_agent_cases (grid st) (goal st) occ a req hd tl Halive Hb) as [E|[E|E]];
      rewrite E; simpl; split; auto; discriminate. }
  destruct Hhead as [Hh Hp].
  split; [apply transition_nth; assumption|].
  split; [exact Hh|].
  split; [rewrite Hh; apply applied_not_reverse|].
  split.
  - intros ->. split; [rewrite Hh; apply applied_of_reverse|].
    apply transition_applied_equiv; [symmetry; apply set_nth_length|].
    intros j b r r' Hj Hrj Hrj'.
    destruct (Nat.eq_dec j i) as [->|Hne].
    + rewrite Ha in Hj; injection Hj as <-.
      rewrite Hr in Hrj; injection Hrj as <-.
      rewrite (set_nth_same i (heading a) _ reqs Hr) in Hrj'; injection Hrj' as <-.
      rewrite applied_of_reverse, applied_of_current; reflexivity.
    + rewrite (set_nth_other i j _ _ Hne) in Hrj'. congruence.
  - intros Hal'. exists hd; split; [reflexivity|].
    rewrite (Hp Hal'), Hh; reflexivity.
Qed.

Definition c2_agent : Agent := {| body := [(5, 5); (5, 4); (5, 3)]%Z; heading := North; alive := true; score := 0 |}.
Definition c2_state : State := {| agents := [c2_agent]; goal := Some (5, 10)%Z; grid := 32; rng := 7; tick := 0 |}.

Lemma reversal_ignored_and_head_advances_witness :
  exists a', nth_error (agents (fst (transition c2_state [South]))) 0 = Some a' /\
             heading a' = North.
Proof.
  destruct (reversal_ignored_and_head_advances c2_state [South] 0 c2_agent South
              eq_refl eq_refl eq_refl ltac:(discriminate)) as [a' [H1 [H2 _]]].
  exists a'; split; [exact H1|]. rewrite H2; reflexivity.
Defined.

Lemma cell_eqb_true (a b : Cell) : cell_eqb a b = true <-> a = b.
Proof.
  destruct a as [a1 a2], b as [b1 b2]; unfold cell_eqb; simpl.
  rewrite andb_true_iff, !Z.eqb_eq; split; [intros [-> ->]; reflexivity | intros H; injection H; auto].
Qed.

Lemma mem_In (c : Cell) l : mem c l = true <-> In c l.
Proof.
  unfold mem; rewrite existsb_exists; split.
  - intros [c' [Hin Heq]]; apply cell_eqb_true in Heq; subst; exact Hin.
  - intros Hin; exists c; split; [exact Hin | apply cell_eqb_true; reflexivity].
Qed.

Lemma In_removelast {A} (c : A) l : In c (removelast l) -> In c l.
Proof.
  induction l as [|x l IH]; simpl; [tauto|].
  destruct l as [|y l]; [simpl; tauto|].
  simpl; intros [H|H]; [left; exact H | right; apply IH; exact H].
Qed.

Lemma blocking_occupied g l r c :
  In c (flat_map (blocking g) (combine l r)) -> In c (occupied_cells l).
Proof.
  unfold occupied_cells; rewrite !in_flat_map.
  intros [[a x] [Hin Hc]]; exists a; split; [apply in_combine_l in Hin; exact Hin|].
  unfold blocking in Hc; destruct (alive a && negb (reaches_goal g a x));
    [apply In_removelast; exact Hc | exact Hc].
Qed.

Lemma zrange_bounds n z : In z (zrange n) -> (0 <= z < n)%Z.
Proof.
  unfold zrange; rewrite in_map_iff; intros [k [<- Hk]]; apply in_seq in Hk; lia.
Qed.

Lemma all_cells_in_grid n c : In c (all_cells n) -> in_grid n c = true.
Proof.
  unfold all_cells; rewrite in_flat_map; intros [x [Hx Hc]].
  apply in_map_iff in Hc; destruct Hc as [y [<- Hy]].
  apply zrange_bounds in Hx; apply zrange_bounds in Hy.
  unfold in_grid; simpl.
  repeat rewrite andb_true_iff; repeat split; first [apply Z.leb_le | apply Z.ltb_lt]; lia.
Qed.

(** A placed goal is a free cell of the grid. *)
Lemma place_goal_free n ags r c r' :
  place_goal n ags r = (Some c, r') ->
  In c (free_cells n ags) /\ mem c (occupied_cells ags) = false /\ in_grid n c = true.
Proof.
  unfold place_goal; intros H; injection H as Hc _.
  apply nth_error_In in Hc.
  pose proof Hc as Hf; unfold free_cells in Hf; apply filter_In in Hf as [Hall Hm].
  split; [exact Hc|]; split; [apply negb_true_iff; exact Hm | apply all_cells_in_grid; exact Hall].
Qed.

Lemma transition_goal_rng st reqs :
  let moves := map (step_agent (grid st) (goal st)
                      (flat_map (blocking (goal st)) (combine (agents st) reqs)))
                   (combine (agents st) reqs) in
  (goal (fst (transition st reqs)), rng (fst (transition st reqs))) =
  if existsb is_grows moves then place_goal (grid st) (agents (fst (transition st reqs))) (rng st)
  else (goal st, rng st).
Proof.
  intros moves; rewrite transition_agents; fold moves.
  unfold transition; cbv beta zeta; fold moves.
  destruct (existsb is_grows moves); [destruct (place_goal _ _ _)|]; reflexivity.
Qed.

Lemma transition_grid st reqs : grid (fst (transition st reqs)) = grid st.
Proof.
  unfold transition; cbv beta zeta.
  destruct (existsb is_grows _); [destruct (place_goal _ _ _)|]; reflexivity.
Qed.

Lemma nth_error_combine_inv {A B} (l : list A) (r : list B) i a b :
  nth_error (combine l r) i = Some (a, b) -> nth_error l i = Some a /\ nth_error r i = Some b.
Proof.
  revert r i; induction l as [|x l IH]; intros [|y r] [|i] H; simpl in *; try discriminate.
  - injection H as -> ->; auto.
  - apply IH; exact H.
Qed.

(** Outside eating ticks no body moves onto the goal. *)
Lemma moved_body_avoids_goal n g occ a r m :
  m = step_agent n (Some g) occ (a, r) -> is_grows m = false ->
  In g (body (apply_move a m)) -> In g (body a).
Proof.
  intros Hm Hg Hin; unfold step_agent in Hm.
  destruct (alive a) eqn:Hal; simpl in Hm; [|subst m; exact Hin].
  destruct (body a) as [|hd tl] eqn:Hb; [subst m; simpl in Hin; rewrite Hb in Hin; exact Hin|].
  destruct (_ || _); [subst m; simpl in Hin; rewrite ?Hb in Hin; exact Hin|].
  destruct (reaches_goal (Some g) a r) eqn:Hr; subst m; [discriminate|].
  simpl in Hin; rewrite Hb in Hin; destruct Hin as [Heq|Hin].
  - exfalso. unfold reaches_goal, new_head in Hr; rewrite Hal, Hb in Hr; simpl in Hr.
    rewrite Heq in Hr. rewrite (proj2 (cell_eqb_true g g) eq_refl) in Hr; discriminate.
  - apply In_removelast; exact Hin.
Qed.

(** Every tick keeps the goal on the grid and off every body. *)
Lemma transition_goal_ok st reqs : goal_ok st = true -> goal_ok (fst (transition st reqs)) = true.
Proof.
  intros Hok. unfold goal_ok.
  pose proof (transition_goal_rng st reqs) as Hgr; cbv zeta in Hgr.
  rewrite transition_grid.
  destruct (existsb is_grows _) eqn:Hgrows.
  - destruct (place_goal _ _ _) as [[c|] r'] eqn:Hp; injection Hgr as -> _; [|reflexivity].
    apply place_goal_free in Hp as [_ [Hm Hin]]. rewrite Hin, Hm; reflexivity.
  - injection Hgr as Hg _. rewrite Hg.
    unfold goal_ok in Hok. destruct (goal st) as [g|] eqn:Hgoal; [|reflexivity].
    apply andb_true_iff in Hok as [Hin Hm]. rewrite Hin; simpl.
    apply negb_true_iff; apply negb_true_iff in Hm.
    destruct (mem g (occupied_cells (agents (fst (transition st reqs))))) eqn:Hm'; [|reflexivity].
    exfalso.
    apply mem_In in Hm'; unfold occupied_cells in Hm'; apply in_flat_map in Hm' as [b [Hb Hgb]].
    apply In_nth_error in Hb as [j Hj]. rewrite transition_agents, nth_error_map in Hj.
    rewrite ?Hgoal in Hj; rewrite ?Hgoal in Hgrows.
    set (occ := flat_map (blocking (Some g)) (combine (agents st) reqs)) in *.
    destruct (nth_error (combine (agents st)
               (map (step_agent (grid st) (Some g) occ) (combine (agents st) reqs))) j)
      as [[a m]|] eqn:Hc; [|discriminate].
    simpl in Hj; injection Hj as <-.
    apply nth_error_combine_inv in Hc as [Ha Hmj].
    rewrite nth_error_map in Hmj.
    destruct (nth_error (combine (agents st) reqs) j) as [[a' r]|] eqn:Hc'; [|discriminate].
    assert (Hmj' : step_agent (grid st) (Some g) occ (a', r) = m)
      by (cbn [option_map] in Hmj; congruence).
    clear Hmj; rename Hmj' into Hmj.
    assert (Hng : is_grows m = false).
    { destruct (is_grows m) eqn:E; [|reflexivity].
      rewrite <- Hgrows; symmetry; apply existsb_exists; exists m; split; [|exact E].
      rewrite <- Hmj; apply in_map; apply nth_error_In with j; exact Hc'. }
    apply nth_error_combine_inv in Hc' as [Ha' _]. rewrite Ha in Ha'; injection Ha' as <-.
    apply (moved_body_avoids_goal _ _ _ _ _ _ (eq_sym Hmj) Hng) in Hgb.
    assert (Hocc : In g (occupied_cells (agents st))).
    { apply in_flat_map; exists a; split; [apply nth_error_In with j; exact Ha | exact Hgb]. }
    apply mem_In in Hocc; congruence.
Qed.

(** The goal placed at match start satisfies the invariant too. *)
Lemma place_goal_goal_ok n ags r g0 r0 t :
  place_goal n ags r = (g0, r0) ->
  goal_ok {| agents := ags; goal := g0; grid := n; rng := r0; tick := t |} = true.
Proof.
  intros Hp; unfold goal_ok; simpl. destruct g0 as [c|]; [|reflexivity].
  apply place_goal_free in Hp as [_ [Hm Hin]]; rewrite Hin, Hm; reflexivity.
Qed.

(** C3: in a tick where an agent's new head is the goal cell (the goal
    lying, as in every reachable state, on the grid and on no body), the
    agent survives, its length and its score grow by exactly one, the new
    goal is drawn by the seeded generator among the cells left free after
    the moves, and so lies on no occupied cell. *)
Theorem goal_consumption (st : State) (reqs : list Heading) (i : nat) (a : Agent)
    (req : Heading) (g : Cell)
    (Ha : nth_error (agents st) i = Some a) (Hr : nth_error reqs i = Some req)
    (Halive : alive a = true) (Hgoal : goal st = Some g) (Hok : goal_ok st = true)
    (Hnh : new_head a req = Some g) :
  let st' := fst (transition st reqs) in
  exists a', nth_error (agents st') i = Some a' /\
    alive a' = true /\
    length (body a') = S (length (body a)) /\
    score a' = S (score a) /\
    (goal st', rng st') = place_goal (grid st) (agents st') (rng st) /\
    (forall c, goal st' = Some c ->
       In c (free_cells (grid st) (agents st')) /\ mem c (occupied_cells (agents st')) = false).
Proof.
  intros st'.
  unfold new_head in Hnh; destruct (body a) as [|hd tl] eqn:Hb; [discriminate|].
  injection Hnh as Hsh.
  unfold goal_ok in Hok; rewrite Hgoal in Hok; apply andb_true_iff in Hok as [Hin Hm].
  apply negb_true_iff in Hm.
  set (occ := flat_map (blocking (goal st)) (combine (agents st) reqs)).
  assert (Hocc : mem g occ = false).
  { destruct (mem g occ) eqn:E; [|reflexivity].
    apply mem_In, blocking_occupied, mem_In in E; congruence. }
  assert (Hreach : reaches_goal (goal st) a req = true).
  { unfold reaches_goal, new_head; rewrite Halive, Hb, Hgoal, Hsh; simpl.
    apply cell_eqb_true; reflexivity. }
  assert (Hstep : step_agent (grid st) (goal st) occ (a, req)
                  = Grows g (applied_heading (heading a) req)).
  { unfold step_agent; rewrite Halive, Hb; simpl. rewrite Hsh, Hin, Hocc, Hreach; reflexivity. }
  exists (apply_move a (Grows g (applied_heading (heading a) req))).
  split; [rewrite <- Hstep; apply transition_nth; assumption|].
  simpl; rewrite Hb; simpl.
  split; [reflexivity|]; split; [reflexivity|]; split; [reflexivity|].
  assert (Hgrows : existsb is_grows (map (step_agent (grid st) (goal st) occ)
                                         (combine (agents st) reqs)) = true).
  { apply existsb_exists; exists (Grows g (applied_heading (heading a) req)); split; [|reflexivity].
    rewrite <- Hstep; apply in_map; apply nth_error_In with i.
    apply nth_error_combine; assumption. }
  pose proof (transition_goal_rng st reqs) as Hgr; cbv zeta in Hgr; fold occ in Hgr.
  rewrite Hgrows in Hgr. fold st' in Hgr.
  split; [exact Hgr|].
  intros c Hc. rewrite Hc in Hgr.
  destruct (place_goal_free _ _ _ _ _ (eq_sym Hgr)) as [H1 [H2 _]]; auto.
Qed.

Definition c3_agent : Agent := {| body := [(5, 9); (5, 8); (5, 7)]%Z; heading := North; alive := true; score := 0 |}.
Definition c3_state : State := {| agents := [c3_agent]; goal := Some (5, 10)%Z; grid := 32; rng := 7; tick := 4 |}.

Lemma goal_consumption_witness :
  exists a', nth_error (agents (fst (transition c3_state [North]))) 0 = Some a' /\
             length (body a') = 4 /\ score a' = 1.
Proof.
  destruct (goal_consumption c3_state [North] 0 c3_agent North (5, 10)%Z
              eq_refl eq_refl eq_refl eq_refl ltac:(vm_compute; reflexivity) eq_refl)
    as [a' [H1 [_ [H3 [H4 _]]]]].
  exists a'; split; [exact H1|]. rewrite H3, H4; split; reflexivity.
Defined.

End GridChaseProofs.

(* ------------------------------------------------------------------ *)
(** ** Script Host and Simulation Loop *)

Module SimulationProofs.
Import GridChase Simulation.











(** A script that rewrites the [snake] field of the table it is given. *)
Definition c6_invoke (i : Instance) (s : TickSnapshot) : Invocation * TickSnapshot * Instance :=
  (Returned (LStr "north"), s, i).


Lemma indices_where_In {A} (f : A -> bool) l : forall k p x,
  nth_error l p = Some x -> f x = true -> In (k + p) (indices_where f k l).
Proof.
  induction l as [|y l IH]; intros k [|p] x Hp Hf; simpl in *; try discriminate.
  - injection Hp as ->; rewrite Hf; left; lia.
  - destruct (f y); [right|]; replace (k + S p) with (S k + p) by lia; eapply IH; eauto.
Qed.

Lemma sole_In {A} (l : list A) x : sole l = Some x -> In x l.
Proof. destruct l as [|y [|z l]]; simpl; try discriminate. intros H; injection H; auto. Qed.

(** C7: when a participant's script fails to load (a syntax error, or a
    chunk that defines no callable [think]: the Script Host's LoadError),
    the match goes from Initializing straight to Terminal: it never enters
    Running, no tick runs, no replay frame is recorded, and the result
    reports that participant as disqualified, with no score and not as
    the winner. *)
Theorem load_error_disqualifies (parse_chunk : string -> option Instance)
    (invoke : Instance -> TickSnapshot -> Invocation * TickSnapshot * Instance)
    (cfg : MatchConfig) (p : nat) (src : string) (f : LoadFailure)
    (Hp : nth_error (scripts cfg) p = Some src) (Hload : load parse_chunk src = inr f) :
  (forall s g, parse_chunk s = Some g -> assoc "think" g = None ->
     load parse_chunk s = inr MissingEntryPoint) /\
  let '(res, frames, phases) := run_match parse_chunk invoke cfg in
  phases = [Initializing; Terminal] /\ ~ In Running phases /\ frames = [] /\
  tick_count res = 0 /\ reason res = LoadFailed /\ In p (disqualified res) /\
  nth_error (scores res) p = Some None /\ winner res <> Some p.
Proof.
  split.
  { intros s g Hs Hg; unfold load; rewrite Hs, Hg; reflexivity. }
  assert (Hl : nth_error (map (load parse_chunk) (scripts cfg)) p = Some (inr f)).
  { rewrite <- Hload; apply map_nth_error; exact Hp. }
  pose proof (indices_where_In is_failure _ 0 p _ Hl eq_refl) as Hin; simpl in Hin.
  unfold run_match.
  destruct (indices_where is_failure 0 (map (load parse_chunk) (scripts cfg))) as [|q qs] eqn:Hf;
    [destruct Hin|].
  simpl. repeat split.
  - intros [H|[H|[]]]; discriminate.
  - exact Hin.
  - apply (map_nth_error (fun l => if is_failure l then None else Some 0)) in Hl; exact Hl.
  - intros Hw. apply sole_In, filter_In in Hw as [_ Hw].
    apply negb_true_iff in Hw.
    assert (existsb (Nat.eqb p) (q :: qs) = true)
      by (apply existsb_exists; exists p; split; [exact Hin | apply Nat.eqb_refl]).
    simpl in H; congruence.
Qed.

Definition c7_config : MatchConfig :=
  {| scripts := ["function think(state) return 'north' end"; "x = 1"]; seed := 1; max_ticks := 10;
     grid_dim := 8; fault_limit := 2;
     spawn := [{| body := [(1, 1)%Z]; heading := North; alive := true; score := 0 |};
               {| body := [(6, 6)%Z]; heading := South; alive := true; score := 0 |}] |}.
Definition c7_parse (s : string) : option Instance :=
  if String.eqb s "x = 1" then Some [("x", LNum 1)] else Some [("think", LFun)].

Lemma load_error_disqualifies_witness :
  let '(res, frames, phases) := run_match c7_parse c6_invoke c7_config in
  phases = [Initializing; Terminal] /\ frames = [] /\ In 1 (disqualified res) /\
  nth_error (scores res) 1 = Some None /\ winner res = Some 0.
Proof.
  pose proof (load_error_disqualifies c7_parse c6_invoke c7_config 1 "x = 1" MissingEntryPoint
                eq_refl eq_refl) as [_ H].
  vm_compute in H |- *. tauto.
Defined.

End SimulationProofs.

(* ------------------------------------------------------------------ *)
(** ** The API clients of agents.ts, auth.ts and games.ts *)

Module FrontendApiProofs.
Import Frontend FrontendApi.

Lemma prefix_app (p t : string) : String.prefix p (p ++ t) = true.
Proof.
  induction p as [|c p IH]; simpl; [destruct t; reflexivity|].
  destruct (Ascii.ascii_dec c c); [exact IH | congruence].
Qed.

Lemma prefix_split (p t : string) : String.prefix p t = true -> exists post, t = p ++ post.
Proof.
  revert t; induction p as [|c p IH]; intros t H.
  - exists t; reflexivity.
  - destruct t as [|c' t]; simpl in H; [discriminate|].
    destruct (Ascii.ascii_dec c c'); [|discriminate].
    destruct (IH t H) as [post ->]; subst; exists post; reflexivity.
Qed.

(** [text.includes(pat)] holds exactly when [pat] occurs in [text]. *)
Lemma includes_spec (pat text : string) :
  includes pat text = true <-> exists pre post, text = pre ++ pat ++ post.
Proof.
  split.
  - induction text as [|c text IH]; intros H; cbn [includes] in H.
    + rewrite orb_false_r in H. destruct pat; [|discriminate].
      exists "", ""; reflexivity.
    + apply orb_true_iff in H as [H|H].
      * apply prefix_split in H as [post Hp]. exists "", post; exact Hp.
      * destruct (IH H) as [pre [post ->]]. exists (String c pre), post; reflexivity.
  - intros [pre [post ->]]. induction pre as [|c pre IH].
    + destruct (pat ++ post) eqn:E; cbn [includes append]; rewrite <- E, prefix_app; reflexivity.
    + cbn [includes append]. rewrite IH, orb_true_r; reflexivity.
Qed.

Lemma response_json_not_error (json_parse : string -> option Json) r m :
  response_json json_parse r <> Rejected (Error m).
Proof. unfold response_json; destruct (json_parse (body r)); discriminate. Qed.

Section Clients.

Variable fetch : Request -> Response.
Variable json_parse : string -> option Json.

(** parseErrorResponse never rejects: it resolves to the [error]
    property of the parsed body when that is truthy, and to [fallback]
    otherwise (a body that is not JSON, not an object, or has a missing or
    falsy [error]). *)
Theorem parseErrorResponse_spec (response : Response) (fallback : string) :
  exists v, parseErrorResponse json_parse response fallback = Resolved v /\
  ((exists fields, json_parse (body response) = Some (JObj fields) /\
                   lookup_field "error" fields = Some v /\ truthy v = true) \/
   (v = JStr fallback /\
    ~ exists fields w, json_parse (body response) = Some (JObj fields) /\
                       lookup_field "error" fields = Some w /\ truthy w = true)).
Proof.
  unfold parseErrorResponse.
  destruct (json_parse (body response)) as [j|] eqn:Ej.
  2:{ eexists; split; [reflexivity|]. right; split; [reflexivity|].
      intros [f [w [H _]]]; discriminate. }
  destruct j as [| | | | |fields];
    try (eexists; split; [reflexivity|]; right; split; [reflexivity|];
         intros [f [w [H _]]]; discriminate).
  destruct (lookup_field "error" fields) as [v|] eqn:El.
  - destruct (truthy v) eqn:Et.
    + exists v; split; [reflexivity|]. left; exists fields; auto.
    + eexists; split; [reflexivity|]. right; split; [reflexivity|].
      intros [f [w [H [H1 H2]]]]. injection H as <-. congruence.
  - eexists; split; [reflexivity|]. right; split; [reflexivity|].
    intros [f [w [H [H1 H2]]]]. injection H as <-. congruence.
Qed.

(** on an HTTP error createAgent rejects with the server's non-empty
    [error] string, and with 'Failed to create agent' when the body carries
    no truthy [error]. *)
Theorem createAgent_error_message (request : CreateAgentRequest) :
  ok (fetch (create_request request)) = false ->
  (forall fields s, json_parse (body (fetch (create_request request))) = Some (JObj fields) ->
     lookup_field "error" fields = Some (JStr s) -> s <> "" ->
     createAgent fetch json_parse request = Rejected (Error s)) /\
  ((forall fields w, json_parse (body (fetch (create_request request))) = Some (JObj fields) ->
     lookup_field "error" fields = Some w -> truthy w = false) ->
   createAgent fetch json_parse request = Rejected (Error "Failed to create agent")).
Proof.
  intros Hok. unfold createAgent. rewrite Hok. cbn [negb].
  destruct (parseErrorResponse_spec (fetch (create_request request)) "Failed to create agent")
    as [v [Hv Hcase]].
  rewrite Hv. cbn [bind]. split.
  - intros fields s Hj Hl Hs. destruct Hcase as [[f [Hj' [Hl' _]]]|[-> Hno]].
    + rewrite Hj in Hj'. injection Hj' as <-. rewrite Hl in Hl'. injection Hl' as <-. reflexivity.
    + exfalso; apply Hno. exists fields, (JStr s). repeat split; auto.
      simpl. destruct (String.eqb_spec s ""); [contradiction|reflexivity].
  - intros Hf. destruct Hcase as [[f [Hj [Hl Ht]]]|[-> _]].
    + rewrite (Hf f v Hj Hl) in Ht; discriminate.
    + reflexivity.
Qed.

(** the same for updateAgent, with the fallback 'Failed to update
    agent'. *)
Theorem updateAgent_error_message (id : Z) (request : UpdateAgentRequest) :
  ok (fetch (update_request id request)) = false ->
  (forall fields s, json_parse (body (fetch (update_request id request))) = Some (JObj fields) ->
     lookup_field "error" fields = Some (JStr s) -> s <> "" ->
     updateAgent fetch json_parse id request = Rejected (Error s)) /\
  ((forall fields w, json_parse (body (fetch (update_request id request))) = Some (JObj fields) ->
     lookup_field "error" fields = Some w -> truthy w = false) ->
   updateAgent fetch json_parse id request = Rejected (Error "Failed to update agent")).
Proof.
  intros Hok. unfold updateAgent. rewrite Hok. cbn [negb].
  destruct (parseErrorResponse_spec (fetch (update_request id request)) "Failed to update agent")
    as [v [Hv Hcase]].
  rewrite Hv. cbn [bind]. split.
  - intros fields s Hj Hl Hs. destruct Hcase as [[f [Hj' [Hl' _]]]|[-> Hno]].
    + rewrite Hj in Hj'. injection Hj' as <-. rewrite Hl in Hl'. injection Hl' as <-. reflexivity.
    + exfalso; apply Hno. exists fields, (JStr s). repeat split; auto.
      simpl. destruct (String.eqb_spec s ""); [contradiction|reflexivity].
  - intros Hf. destruct Hcase as [[f [Hj [Hl Ht]]]|[-> _]].
    + rewrite (Hf f v Hj Hl) in Ht; discriminate.
    + reflexivity.
Qed.

(** fetchAgent, deleteAgent, fetchGames and fetchGame reject with
    their fixed message exactly on an HTTP error status, whatever the body;
    deleteAgent resolves on every 2xx response without reading its body. *)
Theorem fixed_message_errors (id : Z) (game : string) :
  let agent_get := {| url := agent_url id; method := "GET"; credentials := "include"; payload := [] |} in
  let agent_delete := {| url := agent_url id; method := "DELETE"; credentials := "include"; payload := [] |} in
  let games_get := {| url := "/api/games"; method := "GET"; credentials := "same-origin"; payload := [] |} in
  let game_get := {| url := "/api/games/" ++ game; method := "GET"; credentials := "same-origin";
                     payload := [] |} in
  (fetchAgent fetch json_parse id = Rejected (Error "Failed to fetch agent") <-> ok (fetch agent_get) = false) /\
  (deleteAgent fetch id = Rejected (Error "Failed to delete agent") <-> ok (fetch agent_delete) = false) /\
  (deleteAgent fetch id = Resolved tt <-> ok (fetch agent_delete) = true) /\
  (fetchGames fetch json_parse = Rejected (Error "Failed to fetch games") <-> ok (fetch games_get) = false) /\
  (fetchGame fetch json_parse game = Rejected (Error "Failed to fetch game") <-> ok (fetch game_get) = false).
Proof.
  cbv zeta. unfold fetchAgent, deleteAgent, fetchGames, fetchGame.
  repeat split; intros H;
    repeat match goal with
    | H : context [ok ?r] |- _ => destruct (ok r); cbn [negb] in *
    | |- context [ok ?r] => destruct (ok r); cbn [negb] in *
    end;
    try reflexivity; try discriminate;
    exfalso; eapply response_json_not_error; exact H.
Qed.

(** register reports a weak password whenever the error body mentions
    WeakPassword, whatever else it mentions; it reports the generic
    'Registration failed' exactly when the body mentions none of the three
    error kinds. *)
Theorem register_message_priority (username password : string) :
  let res := fetch (register_request username password) in
  let mentions pat := exists pre post, body res = pre ++ pat ++ post in
  ok res = false ->
  (mentions "WeakPassword" ->
   register fetch json_parse username password =
     Rejected (Error "Password must be at least 10 characters with letters, numbers, and symbols")) /\
  (register fetch json_parse username password = Rejected (Error "Registration failed") <->
   ~ mentions "WeakPassword" /\ ~ mentions "UsernameTooShort" /\ ~ mentions "UsernameExists").
Proof.
  cbv zeta. intros Hok. unfold register. rewrite Hok. cbn [negb].
  rewrite <- !includes_spec.
  destruct (includes "WeakPassword" _), (includes "UsernameTooShort" _), (includes "UsernameExists" _);
    split; try (intros; reflexivity); try (intros H; discriminate H);
    try (split; [intros H; discriminate H | intros [H1 [H2 H3]]; congruence]);
    split; [intros _; repeat split; congruence | intros _; reflexivity].
Qed.

(** the earlier createAgent reports a duplicate name exactly when the
    status is an error and the body mentions 'UNIQUE constraint failed'. *)
Theorem createAgent_v0_duplicate (request : CreateAgentRequest) :
  let response := fetch (create_request request) in
  createAgent_v0 fetch json_parse request = Rejected (Error "An agent with that name already exists") <->
  ok response = false /\ exists pre post, body response = pre ++ "UNIQUE constraint failed" ++ post.
Proof.
  cbv zeta. unfold createAgent_v0. rewrite <- includes_spec.
  destruct (ok (fetch (create_request request))); cbn [negb].
  - split; [intros H; exfalso; eapply response_json_not_error; exact H | intros [H _]; discriminate].
  - destruct (includes _ _); split; intros H; try discriminate H; try (split; reflexivity);
      try reflexivity; destruct H as [_ H]; discriminate H.
Qed.

(** For every answer of the server, getMe resolves to null on a non-2xx
    status, and rejects only when a 2xx body is not JSON, with a
    SyntaxError. *)
Theorem getMe_rejects_only_on_bad_json :
  let res := fetch {| url := "/api/users/me"; method := "GET"; credentials := "include"; payload := [] |} in
  (ok res = false -> getMe fetch json_parse = Resolved JNull) /\
  (forall e, getMe fetch json_parse = Rejected e ->
     ok res = true /\ json_parse (body res) = None /\ e = SyntaxError).
Proof.
  cbv zeta. unfold getMe. split.
  - intros H; rewrite H; reflexivity.
  - intros e. destruct (ok _); cbn [negb]; [|discriminate].
    unfold response_json. destruct (json_parse _); [discriminate|].
    intros H; injection H as <-; auto.
Qed.

End Clients.

Definition conflict_server (r : Request) : Response :=
  {| status := 409; body := "{UNIQUE constraint failed: agents.name}" |}.
Definition error_json (s : string) : option Json :=
  if String.eqb s "{UNIQUE constraint failed: agents.name}"
  then Some (JObj [("status", JNum 409); ("error", JStr "That name is taken")])
  else None.

Lemma createAgent_error_message_witness :
  let request := {| req_game_id := 1; req_name := "bot"; req_code := None |} in
  ok (conflict_server (create_request request)) = false /\
  createAgent conflict_server error_json request = Rejected (Error "That name is taken").
Proof.
  cbv zeta.
  destruct (createAgent_error_message conflict_server error_json
              {| req_game_id := 1; req_name := "bot"; req_code := None |} eq_refl) as [H _].
  split; [reflexivity|].
  apply (H [("status", JNum 409); ("error", JStr "That name is taken")]); [reflexivity|reflexivity|discriminate].
Defined.

Lemma updateAgent_error_message_witness :
  let request := {| upd_name := Some "bot"; upd_code := None |} in
  ok (conflict_server (update_request 7 request)) = false /\
  updateAgent conflict_server (fun _ => None) 7 request = Rejected (Error "Failed to update agent").
Proof.
  cbv zeta.
  destruct (updateAgent_error_message conflict_server (fun _ => None) 7
              {| upd_name := Some "bot"; upd_code := None |} eq_refl) as [_ H].
  split; [reflexivity|]. apply H. intros f w Hj; discriminate Hj.
Defined.

Lemma register_message_priority_witness :
  let server (r : Request) := {| status := 400; body := "UsernameExists WeakPassword" |} in
  ok (server (register_request "ab" "pw")) = false /\
  register server (fun _ => None) "ab" "pw" =
    Rejected (Error "Password must be at least 10 characters with letters, numbers, and symbols").
Proof.
  cbv zeta. split; [reflexivity|].
  apply (register_message_priority (fun _ => {| status := 400; body := "UsernameExists WeakPassword" |})
           (fun _ => None) "ab" "pw" eq_refl).
  exists "UsernameExists ", ""; reflexivity.
Defined.


Lemma getMe_rejects_only_on_bad_json_witness :
  getMe (fun _ => {| status := 500; body := "Internal Server Error" |}) (fun _ => None) = Resolved JNull.
Proof.
  apply (proj1 (getMe_rejects_only_on_bad_json
                  (fun _ => {| status := 500; body := "Internal Server Error" |}) (fun _ => None))).
  reflexivity.
Defined.

End FrontendApiProofs.

(* ------------------------------------------------------------------ *)
(** ** AuthProvider composed with the auth.ts client *)

Module AuthProviderProofs.
Import Frontend.

Section Provider.

Variable fetch : Request -> Response.
Variable json_parse : string -> option Json.

(** logging in through the provider sets the user to the parsed body
    exactly when the server answers 2xx with JSON; on any failure (a 404,
    another error status, a body that is not JSON) the provider's state is
    left as it was and the error reaches the caller. *)
Theorem provider_login_outcome (st : AuthProvider.AuthState) (username password : string) :
  let res := fetch (login_request username password) in
  let '(st', r) := AuthProvider.login st (Frontend.login fetch json_parse username password) in
  (r = Resolved tt <->
   ok res = true /\ exists v, json_parse (body res) = Some v /\
                              st' = {| AuthProvider.user := v; AuthProvider.loading := AuthProvider.loading st |}) /\
  (r <> Resolved tt -> st' = st) /\
  ((status res =? 404)%Z = true -> r = Rejected (Error "Invalid username or password")).
Proof.
  cbv zeta. unfold Frontend.login, login_k, AuthProvider.login.
  destruct (ok (fetch (login_request username password))) eqn:Hok; cbn [negb].
  - unfold response_json. destruct (json_parse _) as [v|] eqn:Ej;
      repeat split; intros;
      repeat match goal with H : _ /\ _ |- _ => destruct H | H : exists _, _ |- _ => destruct H end;
      try discriminate; try reflexivity; try (exists v; auto; fail); try contradiction;
      exfalso; match goal with H : (_ =? 404)%Z = true |- _ => apply Z.eqb_eq in H end;
      unfold ok in Hok; rewrite H in Hok; discriminate.
  - destruct (status _ =? 404)%Z; repeat split; intros;
      repeat match goal with H : _ /\ _ |- _ => destruct H end;
      try discriminate; reflexivity.
Qed.

(** logging out through the provider always clears the user and
    resolves, whatever the server answers, since logout ignores the
    response; the loading flag is kept. *)
Theorem provider_logout_clears (st : AuthProvider.AuthState) :
  AuthProvider.logout st (FrontendApi.logout fetch) =
    ({| AuthProvider.user := JNull; AuthProvider.loading := AuthProvider.loading st |}, Resolved tt) /\
  AuthProvider.shows_user (fst (AuthProvider.logout st (FrontendApi.logout fetch))) = false.
Proof.
  unfold FrontendApi.logout, AuthProvider.logout, AuthProvider.shows_user. cbn.
  split; [reflexivity|]. apply andb_false_r.
Qed.

(** after the mount effect has run getMe, loading is off and the top
    bar shows a user exactly when the server answered 2xx with a JSON body
    that is truthy; an HTTP error or a rejected getMe shows nobody. *)
Theorem provider_mount_shows_user :
  let res := fetch {| url := "/api/users/me"; method := "GET"; credentials := "include"; payload := [] |} in
  let st := AuthProvider.mounted AuthProvider.initial (FrontendApi.getMe fetch json_parse) in
  AuthProvider.loading st = false /\
  (AuthProvider.shows_user st = true <->
   ok res = true /\ exists v, json_parse (body res) = Some v /\ FrontendApi.truthy v = true).
Proof.
  cbv zeta. unfold FrontendApi.getMe, AuthProvider.mounted, AuthProvider.shows_user.
  destruct (ok _); cbn [negb].
  - unfold response_json. destruct (json_parse _) as [v|] eqn:Ej; cbn.
    + split; [reflexivity|]. split; [intros H; eauto | intros [_ [w [H Ht]]]; injection H as <-; exact Ht].
    + split; [reflexivity|]. split; [intros H; discriminate H | intros [_ [w [H _]]]; discriminate H].
  - cbn. split; [reflexivity|]. split; [intros H; discriminate H | intros [H _]; discriminate H].
Qed.

End Provider.

End AuthProviderProofs.

(* ------------------------------------------------------------------ *)
(** ** The default snake AI *)

Module DefaultAIMoreProofs.
Import DefaultAI AIGeometry.

(** whenever think turns away from the current direction, one step in
    the new direction brings the head strictly closer to the food
    (Manhattan distance). *)
Theorem think_turn_approaches_food (s : State) (head : Pos) (tail : list Pos) (d : string) :
  snake s = head :: tail -> think s = Some d -> d <> direction s ->
  (manhattan (step d head) (food s) < manhattan head (food s))%Z.
Proof.
  intros Hs Ht Hd. unfold think in Ht. rewrite Hs in Ht. cbv zeta in Ht.
  unfold manhattan, step.
  destruct (x head <? x (food s))%Z eqn:E1, (x (food s) <? x head)%Z eqn:E2,
    (y head <? y (food s))%Z eqn:E3, (y (food s) <? y head)%Z eqn:E4,
    (String.eqb (direction s) "west"), (String.eqb (direction s) "east"),
    (String.eqb (direction s) "south"), (String.eqb (direction s) "north");
    cbn in Ht; injection Ht as <-; try congruence; cbn;
    rewrite ?Z.ltb_lt, ?Z.ltb_ge in *; lia.
Qed.

(** think reads only the head, the food and the direction: the tail,
    grid_size and score never change its answer. *)
Theorem think_reads_head_food_direction (s1 s2 : State) (head : Pos) (t1 t2 : list Pos) :
  snake s1 = head :: t1 -> snake s2 = head :: t2 ->
  food s1 = food s2 -> direction s1 = direction s2 ->
  think s1 = think s2.
Proof. intros H1 H2 Hf Hd. unfold think. rewrite H1, H2, Hf, Hd. reflexivity. Qed.

(** when the food is on the head cell, think keeps the current
    direction. *)
Theorem think_on_food_keeps_direction (s : State) (tail : list Pos) :
  snake s = food s :: tail -> think s = Some (direction s).
Proof.
  intros H. unfold think. rewrite H. cbv zeta. rewrite !Z.ltb_irrefl. reflexivity.
Qed.

(** for a non-empty snake whose direction is one of the four names,
    think answers one of the four names. *)
Theorem think_answers_a_direction (s : State) :
  snake s <> [] -> In (direction s) directions ->
  exists d, think s = Some d /\ In d directions.
Proof.
  intros Hne Hin. unfold think. destruct (snake s) as [|head tail]; [contradiction|].
  cbv zeta.
  destruct (_ && _); [eexists; split; [reflexivity|]; simpl; tauto|].
  destruct (_ && _); [eexists; split; [reflexivity|]; simpl; tauto|].
  destruct (_ && _); [eexists; split; [reflexivity|]; simpl; tauto|].
  destruct (_ && _); [eexists; split; [reflexivity|]; simpl; tauto|].
  eexists; split; [reflexivity|exact Hin].
Qed.

Definition sample_state : State :=
  {| snake := [{| x := 5; y := 5 |}; {| x := 4; y := 5 |}]; food := {| x := 5; y := 9 |};
     direction := "east"; grid_size := 32; score := 0 |}.

Lemma think_turn_approaches_food_witness :
  think sample_state = Some "north" /\
  (manhattan (step "north" {| x := 5; y := 5 |}) (food sample_state) <
   manhattan {| x := 5; y := 5 |} (food sample_state))%Z.
Proof.
  split; [reflexivity|].
  apply (think_turn_approaches_food sample_state {| x := 5; y := 5 |} [{| x := 4; y := 5 |}] "north");
    [reflexivity | reflexivity | discriminate].
Defined.

Lemma think_reads_head_food_direction_witness :
  think sample_state =
  think {| snake := [{| x := 5; y := 5 |}]; food := {| x := 5; y := 9 |};
           direction := "east"; grid_size := 8; score := 12 |}.
Proof.
  apply (think_reads_head_food_direction _ _ {| x := 5; y := 5 |} [{| x := 4; y := 5 |}] []);
    reflexivity.
Defined.

Lemma think_on_food_keeps_direction_witness :
  let s := {| snake := [{| x := 3; y := 3 |}]; food := {| x := 3; y := 3 |};
              direction := "south"; grid_size := 32; score := 2 |} in
  think s = Some "south".
Proof.
  cbv zeta.
  apply (think_on_food_keeps_direction
           {| snake := [{| x := 3; y := 3 |}]; food := {| x := 3; y := 3 |};
              direction := "south"; grid_size := 32; score := 2 |} []).
  reflexivity.
Defined.

Lemma think_answers_a_direction_witness :
  exists d, think sample_state = Some d /\ In d directions.
Proof.
  apply think_answers_a_direction; [discriminate | simpl; tauto].
Defined.

End DefaultAIMoreProofs.

(* ------------------------------------------------------------------ *)
(** ** The agent editor *)

Module AgentEditorProofs.
Import Frontend AgentEditor.

Lemma drop_spaces_all (l : list Ascii.ascii) :
  Forall (fun c => is_js_space c = true) l -> drop_spaces l = [].
Proof. induction 1 as [|c l Hc _ IH]; simpl; [reflexivity|]. rewrite Hc; exact IH. Qed.

Lemma drop_spaces_head (l l' : list Ascii.ascii) (c : Ascii.ascii) :
  drop_spaces l = c :: l' -> is_js_space c = false.
Proof.
  induction l as [|c0 l IH]; simpl; [discriminate|].
  destruct (is_js_space c0) eqn:E; [exact IH|]. intros H; injection H as <- _; exact E.
Qed.

Lemma drop_spaces_suffix (l : list Ascii.ascii) : exists sp, l = (sp ++ drop_spaces l)%list.
Proof.
  induction l as [|c l [sp IH]]; simpl; [exists []; reflexivity|].
  destruct (is_js_space c); [exists (c :: sp); simpl; f_equal; exact IH | exists []; reflexivity].
Qed.

Lemma trim_blank (s : string) :
  Forall (fun c => is_js_space c = true) (list_ascii_of_string s) -> trim s = "".
Proof. intros H. unfold trim. rewrite (drop_spaces_all _ H). reflexivity. Qed.

Lemma trim_first (s rest : string) (c : Ascii.ascii) :
  trim s = String c rest -> is_js_space c = false.
Proof.
  unfold trim. intros H.
  set (m := drop_spaces (list_ascii_of_string s)) in H.
  destruct (drop_spaces_suffix (rev m)) as [sp Hsp].
  apply (f_equal list_ascii_of_string) in H.
  rewrite list_ascii_of_string_of_list_ascii in H. simpl in H.
  apply (f_equal (@rev _)) in Hsp. rewrite rev_involutive, rev_app_distr, H in Hsp.
  apply (drop_spaces_head (list_ascii_of_string s) (list_ascii_of_string rest ++ rev sp)%list).
  fold m. rewrite Hsp. reflexivity.
Qed.

Lemma trim_last (s : string) (pre : list Ascii.ascii) (c : Ascii.ascii) :
  list_ascii_of_string (trim s) = (pre ++ [c])%list -> is_js_space c = false.
Proof.
  unfold trim. rewrite list_ascii_of_string_of_list_ascii. intros H.
  apply (f_equal (@rev _)) in H. rewrite rev_involutive, rev_app_distr in H.
  exact (drop_spaces_head _ _ _ H).
Qed.

Section Proofs.

Variable syntax_error_message : string.

(** saving with a name that is empty or only whitespace sends no
    request and only sets the error 'Agent name is required'. *)
Theorem handleSave_blank_name (gameId : Z) (st : EditorState)
    (respond : ApiCall -> Promise AgentApi.Agent) :
  Forall (fun c => is_js_space c = true) (list_ascii_of_string (name st)) ->
  handleSave syntax_error_message gameId st respond =
    (set_error (Some "Agent name is required") st, None).
Proof. intros H. unfold handleSave. rewrite (trim_blank _ H). reflexivity. Qed.

(** every request handleSave sends is a create or an update whose
    name is the trimmed name field: non-empty, and neither starting nor
    ending with whitespace. *)
Theorem handleSave_sends_trimmed_name (gameId : Z) (st st' : EditorState)
    (respond : ApiCall -> Promise AgentApi.Agent) (call : ApiCall) :
  handleSave syntax_error_message gameId st respond = (st', Some call) ->
  exists n, call_name call = Some n /\ n = trim (name st) /\ n <> "" /\
    (forall c rest, n = String c rest -> is_js_space c = false) /\
    (forall pre c, list_ascii_of_string n = (pre ++ [c])%list -> is_js_space c = false).
Proof.
  unfold handleSave. destruct (String.eqb_spec (trim (name st)) "") as [_|Hne].
  { intros H; discriminate H. }
  assert (Hcall : call_name call = Some (trim (name st)) ->
                  exists n, call_name call = Some n /\ n = trim (name st) /\ n <> "" /\
                    (forall c rest, n = String c rest -> is_js_space c = false) /\
                    (forall pre c, list_ascii_of_string n = (pre ++ [c])%list -> is_js_space c = false)).
  { intros Hc. exists (trim (name st)). repeat split; auto.
    - intros c rest H. exact (trim_first _ _ _ H).
    - intros pre c H. exact (trim_last _ _ _ H). }
  intros H. apply Hcall. clear Hcall.
  destruct (isCreating st).
  - destruct (respond _); injection H as _ <-; reflexivity.
  - destruct (selectedAgent st); [|discriminate H].
    destruct (respond _); injection H as _ <-; reflexivity.
Qed.

(** a successful create appends the server's agent to the list,
    selects it and loads its name and code, and leaves creation mode. *)
Theorem handleSave_create_success (gameId : Z) (st : EditorState)
    (respond : ApiCall -> Promise AgentApi.Agent) (newAgent : AgentApi.Agent) :
  isCreating st = true -> trim (name st) <> "" ->
  respond (CreateCall gameId (trim (name st)) (code st)) = Resolved newAgent ->
  let st' := fst (handleSave syntax_error_message gameId st respond) in
  agents st' = (agents st ++ [newAgent])%list /\ selectedAgent st' = Some newAgent /\
  name st' = AgentApi.name newAgent /\ code st' = AgentApi.code newAgent /\
  isCreating st' = false /\ saving st' = false /\ error st' = None.
Proof.
  intros Hc Hn Hr. unfold handleSave.
  destruct (String.eqb_spec (trim (name st)) "") as [E|_]; [contradiction|].
  rewrite Hc, Hr. cbn. repeat split; reflexivity.
Qed.

(** a successful update keeps the list's length and order, puts the
    server's agent in place of every entry with its id, and selects it;
    the name and code fields keep what the user typed (the name is not
    replaced by its trimmed form). *)
Theorem handleSave_update_success (gameId : Z) (st : EditorState) (sel updated : AgentApi.Agent)
    (respond : ApiCall -> Promise AgentApi.Agent) :
  isCreating st = false -> selectedAgent st = Some sel -> trim (name st) <> "" ->
  respond (UpdateCall (AgentApi.id sel) (trim (name st)) (code st)) = Resolved updated ->
  let st' := fst (handleSave syntax_error_message gameId st respond) in
  length (agents st') = length (agents st) /\
  (forall n a, nth_error (agents st) n = Some a ->
     nth_error (agents st') n =
       Some (if (AgentApi.id a =? AgentApi.id updated)%Z then updated else a)) /\
  selectedAgent st' = Some updated /\ name st' = name st /\ code st' = code st /\
  saving st' = false /\ error st' = None.
Proof.
  intros Hc Hs Hn Hr. unfold handleSave.
  destruct (String.eqb_spec (trim (name st)) "") as [E|_]; [contradiction|].
  rewrite Hc, Hs, Hr. cbn. repeat split; try reflexivity.
  - apply length_map.
  - intros n a Ha. apply (map_nth_error (fun a => if (AgentApi.id a =? AgentApi.id updated)%Z
                                                  then updated else a)) in Ha. exact Ha.
Qed.

(** a save whose request fails leaves the list, the selection, the
    fields and the mode as they were, shows the error's message and turns
    saving off. *)
Theorem handleSave_failure (gameId : Z) (st st' : EditorState)
    (respond : ApiCall -> Promise AgentApi.Agent) (call : ApiCall) (e : JsError) :
  handleSave syntax_error_message gameId st respond = (st', Some call) ->
  respond call = Rejected e ->
  agents st' = agents st /\ selectedAgent st' = selectedAgent st /\ name st' = name st /\
  code st' = code st /\ isCreating st' = isCreating st /\
  error st' = Some (err_message syntax_error_message e) /\ saving st' = false.
Proof.
  unfold handleSave. destruct (String.eqb (trim (name st)) ""); [intros H; discriminate H|].
  destruct (isCreating st) eqn:Hc.
  - destruct (respond (CreateCall _ _ _)) eqn:Hr; intros H; injection H as <- <-;
      intros He; rewrite Hr in He; [discriminate He|]. injection He as ->. cbn. rewrite ?Hc. repeat split.
  - destruct (selectedAgent st) eqn:Hs; [|intros H; discriminate H].
    destruct (respond (UpdateCall _ _ _)) eqn:Hr; intros H; injection H as <- <-;
      intros He; rewrite Hr in He; [discriminate He|]. injection He as ->. cbn. rewrite ?Hc, ?Hs.
    repeat split.
Qed.

(** a confirmed delete that succeeds leaves exactly the other agents,
    selects the first of them and loads its name and code, or clears the
    selection, name and code when none is left. *)
Theorem handleDelete_success (st : EditorState) (sel : AgentApi.Agent)
    (respond : ApiCall -> Promise unit) (u : unit) :
  selectedAgent st = Some sel -> respond (DeleteCall (AgentApi.id sel)) = Resolved u ->
  let st' := fst (handleDelete syntax_error_message st true respond) in
  (forall a, In a (agents st') <-> In a (agents st) /\ AgentApi.id a <> AgentApi.id sel) /\
  selectedAgent st' = hd_error (agents st') /\
  (forall a rest, agents st' = a :: rest -> name st' = AgentApi.name a /\ code st' = AgentApi.code a) /\
  (agents st' = [] -> name st' = "" /\ code st' = "") /\
  saving st' = false /\ error st' = None.
Proof.
  intros Hs Hr. unfold handleDelete. rewrite Hs. cbn [negb]. rewrite Hr. cbv zeta.
  assert (Hin : forall a, In a (filter (fun a => negb (AgentApi.id a =? AgentApi.id sel)%Z) (agents st)) <->
                          In a (agents st) /\ AgentApi.id a <> AgentApi.id sel).
  { intros a. rewrite filter_In, negb_true_iff, Z.eqb_neq. reflexivity. }
  destruct (filter _ (agents st)) as [|a0 rest]; cbn.
  - split; [exact Hin|]. split; [reflexivity|]. split; [intros a r H; discriminate H|].
    split; [intros _; split; reflexivity|]. split; reflexivity.
  - split; [exact Hin|]. split; [reflexivity|].
    split; [intros a r H; injection H as <- <-; split; reflexivity|].
    split; [intros H; discriminate H|]. split; reflexivity.
Qed.

(** a confirmed delete whose request fails leaves the list, the
    selection and the fields as they were, shows the error's message and
    turns saving off. *)
Theorem handleDelete_failure (st st' : EditorState) (confirmed : bool)
    (respond : ApiCall -> Promise unit) (call : ApiCall) (e : JsError) :
  handleDelete syntax_error_message st confirmed respond = (st', Some call) ->
  respond call = Rejected e ->
  agents st' = agents st /\ selectedAgent st' = selectedAgent st /\ name st' = name st /\
  code st' = code st /\ error st' = Some (err_message syntax_error_message e) /\ saving st' = false.
Proof.
  unfold handleDelete. destruct (selectedAgent st) as [sel|] eqn:Hs; [|intros H; discriminate H].
  destruct confirmed; cbn [negb]; [|intros H; discriminate H].
  destruct (respond (DeleteCall _)) eqn:Hr; intros H; injection H as <- <-;
    intros He; rewrite Hr in He; [discriminate He|].
  injection He as ->. cbn. rewrite ?Hs. repeat split.
Qed.

(** the saving flag never stays on: if it is off before a save or a
    delete, it is off after, whatever the user and the server answer. *)
Theorem saving_never_sticks (gameId : Z) (st : EditorState) (confirmed : bool)
    (on_save : ApiCall -> Promise AgentApi.Agent) (on_delete : ApiCall -> Promise unit) :
  saving st = false ->
  saving (fst (handleSave syntax_error_message gameId st on_save)) = false /\
  saving (fst (handleDelete syntax_error_message st confirmed on_delete)) = false.
Proof.
  intros H. split.
  - unfold handleSave. destruct (String.eqb _ _); [exact H|].
    destruct (isCreating st); [destruct (on_save _); reflexivity|].
    destruct (selectedAgent st); [destruct (on_save _); reflexivity | reflexivity].
  - unfold handleDelete. destruct (selectedAgent st); [|exact H].
    destruct (negb confirmed); [exact H|]. cbv zeta.
    destruct (on_delete _); [|reflexivity]. destruct (filter _ _); reflexivity.
Qed.

(** reloading the agents keeps the current selection and fields even
    when the new list no longer contains the selected agent; loading ends
    off, and a successful load replaces the list and clears the error. *)
Theorem loadAgents_keeps_selection (st : EditorState) (sel : AgentApi.Agent)
    (fetched : Promise (list AgentApi.Agent)) :
  selectedAgent st = Some sel ->
  let st' := loadAgents syntax_error_message st fetched in
  selectedAgent st' = Some sel /\ name st' = name st /\ code st' = code st /\
  isCreating st' = isCreating st /\ loading st' = false /\
  (forall data, fetched = Resolved data -> agents st' = data /\ error st' = None).
Proof.
  intros Hs. unfold loadAgents. cbv zeta. rewrite Hs.
  destruct fetched as [data|e].
  - destruct data; cbn; rewrite ?Hs; do 5 (split; [reflexivity|]);
      intros d H; injection H as <-; split; reflexivity.
  - cbn. rewrite Hs. do 5 (split; [reflexivity|]). intros d H; discriminate H.
Qed.

(** with nothing selected, a load that returns agents selects the
    first one and loads its name and code. *)
Theorem loadAgents_selects_first (st : EditorState) (first : AgentApi.Agent)
    (rest : list AgentApi.Agent) :
  selectedAgent st = None ->
  let st' := loadAgents syntax_error_message st (Resolved (first :: rest)) in
  agents st' = first :: rest /\ selectedAgent st' = Some first /\
  name st' = AgentApi.name first /\ code st' = AgentApi.code first /\
  isCreating st' = false /\ loading st' = false /\ error st' = None.
Proof. intros Hs. unfold loadAgents. cbv zeta. rewrite Hs. cbn. repeat split. Qed.

End Proofs.

Definition agent1 : AgentApi.Agent :=
  {| AgentApi.id := 1; AgentApi.user_id := 9; AgentApi.game_id := 2; AgentApi.name := "chaser";
     AgentApi.code := "return 'north'"; AgentApi.created_at := "t0"; AgentApi.updated_at := "t0" |}.
Definition agent2 : AgentApi.Agent :=
  {| AgentApi.id := 2; AgentApi.user_id := 9; AgentApi.game_id := 2; AgentApi.name := "hugger";
     AgentApi.code := "return 'east'"; AgentApi.created_at := "t1"; AgentApi.updated_at := "t1" |}.
Definition editor_state (nm : string) (creating : bool) : EditorState :=
  {| agents := [agent1; agent2]; selectedAgent := if creating then None else Some agent1;
     code := "return 'south'"; name := nm; isCreating := creating; loading := false;
     saving := false; error := None |}.
Definition save_ok (c : ApiCall) : Promise AgentApi.Agent :=
  match c with
  | CreateCall g n cd => Resolved {| AgentApi.id := 3; AgentApi.user_id := 9; AgentApi.game_id := g;
                                     AgentApi.name := n; AgentApi.code := cd;
                                     AgentApi.created_at := "t2"; AgentApi.updated_at := "t2" |}
  | UpdateCall i n cd => Resolved {| AgentApi.id := i; AgentApi.user_id := 9; AgentApi.game_id := 2;
                                     AgentApi.name := n; AgentApi.code := cd;
                                     AgentApi.created_at := "t0"; AgentApi.updated_at := "t3" |}
  | DeleteCall _ => Rejected (Error "unexpected")
  end.
Definition save_fails (c : ApiCall) : Promise AgentApi.Agent := Rejected (Error "Name taken").
Definition delete_ok (c : ApiCall) : Promise unit := Resolved tt.
Definition delete_fails (c : ApiCall) : Promise unit := Rejected (Error "Failed to delete agent").

Lemma handleSave_blank_name_witness :
  handleSave "" 2 (editor_state " 	 " true) save_ok =
    (set_error (Some "Agent name is required") (editor_state " 	 " true), None).
Proof.
  apply handleSave_blank_name. repeat constructor.
Defined.

Lemma handleSave_sends_trimmed_name_witness :
  exists n, call_name (CreateCall 2 "bot" "return 'south'") = Some n /\ n = trim (name (editor_state "  bot " true)) /\
    n <> "" /\
    (forall c rest, n = String c rest -> is_js_space c = false) /\
    (forall pre c, list_ascii_of_string n = (pre ++ [c])%list -> is_js_space c = false).
Proof.
  apply (handleSave_sends_trimmed_name "" 2 (editor_state "  bot " true)
           (fst (handleSave "" 2 (editor_state "  bot " true) save_ok)) save_ok).
  vm_compute. reflexivity.
Defined.

Lemma handleSave_create_success_witness :
  let st' := fst (handleSave "" 2 (editor_state " bot" true) save_ok) in
  agents st' = (agents (editor_state " bot" true) ++ [{| AgentApi.id := 3; AgentApi.user_id := 9; AgentApi.game_id := 2; AgentApi.name := "bot";
        AgentApi.code := "return 'south'"; AgentApi.created_at := "t2"; AgentApi.updated_at := "t2" |}])%list /\
  selectedAgent st' = Some {| AgentApi.id := 3; AgentApi.user_id := 9; AgentApi.game_id := 2;
    AgentApi.name := "bot"; AgentApi.code := "return 'south'"; AgentApi.created_at := "t2";
    AgentApi.updated_at := "t2" |} /\
  name st' = "bot" /\ code st' = "return 'south'" /\
  isCreating st' = false /\ saving st' = false /\ error st' = None.
Proof.
  apply handleSave_create_success; [reflexivity | vm_compute; discriminate | reflexivity].
Defined.

Definition agent1_renamed : AgentApi.Agent :=
  {| AgentApi.id := 1; AgentApi.user_id := 9; AgentApi.game_id := 2; AgentApi.name := "renamed";
     AgentApi.code := "return 'south'"; AgentApi.created_at := "t0"; AgentApi.updated_at := "t3" |}.

Lemma handleSave_update_success_witness :
  let st := editor_state "renamed " false in
  let st' := fst (handleSave "" 2 st save_ok) in
  length (agents st') = length (agents st) /\
  (forall n a, nth_error (agents st) n = Some a ->
     nth_error (agents st') n =
       Some (if (AgentApi.id a =? AgentApi.id agent1_renamed)%Z then agent1_renamed else a)) /\
  selectedAgent st' = Some agent1_renamed /\ name st' = name st /\ code st' = code st /\
  saving st' = false /\ error st' = None.
Proof.
  apply (handleSave_update_success "" 2 (editor_state "renamed " false) agent1);
    [reflexivity | reflexivity | vm_compute; discriminate | reflexivity].
Defined.

Lemma handleSave_failure_witness :
  let st' := fst (handleSave "" 2 (editor_state "bot" false) save_fails) in
  agents st' = [agent1; agent2] /\ selectedAgent st' = Some agent1 /\ name st' = "bot" /\
  code st' = "return 'south'" /\ isCreating st' = false /\
  error st' = Some (err_message "" (Error "Name taken")) /\ saving st' = false.
Proof.
  apply (handleSave_failure "" 2 (editor_state "bot" false) _ save_fails
           (UpdateCall 1 "bot" "return 'south'")); reflexivity.
Defined.

Lemma handleDelete_success_witness :
  let st' := fst (handleDelete "" (editor_state "chaser" false) true delete_ok) in
  (forall a, In a (agents st') <-> In a [agent1; agent2] /\ AgentApi.id a <> 1%Z) /\
  selectedAgent st' = hd_error (agents st') /\
  (forall a rest, agents st' = a :: rest -> name st' = AgentApi.name a /\ code st' = AgentApi.code a) /\
  (agents st' = [] -> name st' = "" /\ code st' = "") /\
  saving st' = false /\ error st' = None.
Proof.
  apply (handleDelete_success "" (editor_state "chaser" false) agent1 delete_ok tt); reflexivity.
Defined.

Lemma handleDelete_failure_witness :
  let st' := fst (handleDelete "" (editor_state "chaser" false) true delete_fails) in
  agents st' = [agent1; agent2] /\ selectedAgent st' = Some agent1 /\ name st' = "chaser" /\
  code st' = "return 'south'" /\ error st' = Some "Failed to delete agent" /\ saving st' = false.
Proof.
  apply (handleDelete_failure "" (editor_state "chaser" false) _ true delete_fails
           (DeleteCall 1) (Error "Failed to delete agent")); reflexivity.
Defined.

Lemma saving_never_sticks_witness :
  saving (fst (handleSave "" 2 (editor_state "bot" false) save_fails)) = false /\
  saving (fst (handleDelete "" (editor_state "bot" false) true delete_fails)) = false.
Proof. apply saving_never_sticks; reflexivity. Defined.

Lemma loadAgents_keeps_selection_witness :
  let st' := loadAgents "" (editor_state "chaser" false) (Resolved [agent2]) in
  selectedAgent st' = Some agent1 /\ name st' = "chaser" /\ code st' = "return 'south'" /\
  isCreating st' = false /\ loading st' = false /\
  (forall data, Resolved [agent2] = Resolved data -> agents st' = data /\ error st' = None).
Proof. apply loadAgents_keeps_selection; reflexivity. Defined.

Lemma loadAgents_selects_first_witness :
  let st' := loadAgents "" (editor_state "" true) (Resolved [agent2; agent1]) in
  agents st' = [agent2; agent1] /\ selectedAgent st' = Some agent2 /\
  name st' = "hugger" /\ code st' = "return 'east'" /\
  isCreating st' = false /\ loading st' = false /\ error st' = None.
Proof. apply loadAgents_selects_first; reflexivity. Defined.

End AgentEditorProofs.
